(** * swarm/api/api.go: name resolution, manifest access and file edits

    A shallow embedding of [swarm/api/api.go]: the TLD-scoped resolver
    chain ([MultiResolver]), the façade operations [Api.Resolve],
    [Api.Put], [Api.Get], and the buffer construction and path trimming
    of [Api.AddFile], [Api.RemoveFile] and [Api.AppendFile].

    Go values are modelled as follows.
    - [string] is a byte string: [String.string].
    - [[]byte], [storage.Key] and [common.Hash] are [list byte].
    - [error] is an interface value; [nil] is [None], so a Go
      [(v, err)] result is a pair whose second component is
      [option error].
    - a run-time panic is an explicit outcome ([Panic]).
    - metrics counters and log lines have no influence on any result
      and are left out. *)

From Stdlib Require Import ZArith Lia ZifyBool List String Ascii.
From Stdlib.Strings Require Import Byte.
From stdpp Require Import base option list gmap strings.

Local Open Scope string_scope.
Local Open Scope list_scope.
Local Open Scope Z_scope.

(** ** Go run-time pieces used by api.go *)

(** Outcome of evaluating Go code that may panic. *)
Inductive panic : Type :=
| SliceBoundsOutOfRange
| MakeSliceLenOutOfRange.

(** [OutOfFuel] belongs to the model only: loops whose number of rounds
    the code does not bound are run with a budget of rounds. *)
Inductive outcome (A : Type) : Type :=
| Done (a : A)
| Panic (p : panic)
| OutOfFuel.
Arguments Done {A} a.
Arguments Panic {A} p.
Arguments OutOfFuel {A}.

(** Sequencing: a panic aborts everything after it. *)
#[global] Instance outcome_ret : MRet outcome := @Done.
#[global] Instance outcome_bind : MBind outcome := fun A B k x =>
  match x with
  | Done a => k a
  | Panic p => Panic p
  | OutOfFuel => OutOfFuel
  end.

(** [s[lo:hi]] on a string: panics unless [0 <= lo <= hi <= len(s)]. *)
Definition str_slice (s : string) (lo hi : Z) : outcome string :=
  if (0 <=? lo) && (lo <=? hi) && (hi <=? Z.of_nat (String.length s))
  then Done (String.substring (Z.to_nat lo) (Z.to_nat (hi - lo)) s)
  else Panic SliceBoundsOutOfRange.

(** [s[lo:]] *)
Definition str_slice_from (s : string) (lo : Z) : outcome string :=
  str_slice s lo (Z.of_nat (String.length s)).

(** [s[:hi]] *)
Definition str_slice_to (s : string) (hi : Z) : outcome string :=
  str_slice s 0 hi.

(** Go's [path.Ext]:
<<
  for i := len(path) - 1; i >= 0 && path[i] != '/'; i-- {
      if path[i] == '.' { return path[i:] }
  }
  return ""
>>
    [path_Ext_from path n] runs the loop with [i = n - 1]. *)
Fixpoint path_Ext_from (path : string) (n : nat) : string :=
  match n with
  | O => ""
  | S i =>
      match String.get i path with
      | Some c =>
          if Ascii.eqb c "/" then ""
          else if Ascii.eqb c "." then
                 String.substring i (String.length path - i) path
               else path_Ext_from path i
      | None => ""
      end
  end.

Definition path_Ext (path : string) : string :=
  path_Ext_from path (String.length path).

(** ** Errors *)

(** The error values api.go creates or passes on. *)
Inductive error : Type :=
| NoResolverError (TLD : string)
| ErrResourceReturn (key : string)
| Errorf (format : string) (args : list string)
| ErrCollaborator (msg : string)
| io_EOF
| io_ErrShortBuffer
| io_ErrUnexpectedEOF.

#[global] Instance error_eq_dec : EqDecision error.
Proof. solve_decision. Defined.

(** [NoResolverError.Error] *)
Definition NoResolverError_Error (tld : string) : string :=
  if decide (tld = "") then "no ENS resolver"
  else "no ENS endpoint configured to resolve ." +:+ tld +:+ " TLD names".

(** [ErrResourceReturn.Error] and [ErrResourceReturn.Key] *)
Definition ErrResourceReturn_Error (key : string) : string := "resourceupdate".
Definition ErrResourceReturn_Key (key : string) : string := key.

(** ** Hashes, keys and addresses *)

#[global] Instance byte_eq_decision : EqDecision byte := Byte.byte_eq_dec.

Definition common_Hash : Type := list byte.
Definition common_Address : Type := list byte.
Definition storage_Key : Type := list byte.

(** The zero value of [common.Hash] ([32]byte). *)
Definition common_Hash_zero : common_Hash := replicate 32 x00.

(** ** The resolver chain *)

(** [ResolveValidator] (with the embedded [Resolver]): a backend is an
    object with three methods. [types.Header] is kept abstract as the
    block number it was asked for. *)
Record ResolveValidator : Type := {
  rv_Resolve : string -> common_Hash * option error;
  rv_Owner : common_Hash -> common_Address * option error;
  rv_HeaderByNumber : Z -> option Z * option error
}.

Record MultiResolver : Type := {
  resolvers : gmap string (list ResolveValidator);
  nameHash : string -> common_Hash
}.

Inductive MultiResolverOption : Type :=
| MultiResolverOptionWithResolver (r : ResolveValidator) (tld : string)
| MultiResolverOptionWithNameHash (nameHash : string -> common_Hash).

(** Applying an option to the resolver under construction. *)
Definition apply_option (o : MultiResolverOption) (m : MultiResolver) : MultiResolver :=
  match o with
  | MultiResolverOptionWithResolver r tld =>
      {| resolvers := <[tld := default [] (resolvers m !! tld) ++ [r]]> (resolvers m);
         nameHash := nameHash m |}
  | MultiResolverOptionWithNameHash f =>
      {| resolvers := resolvers m; nameHash := f |}
  end.

(** [NewMultiResolver]; [ens_EnsNode] is the default name hash. *)
Definition NewMultiResolver (ens_EnsNode : string -> common_Hash)
    (opts : list MultiResolverOption) : MultiResolver :=
  fold_left (fun m o => apply_option o m) opts
    {| resolvers := ∅; nameHash := ens_EnsNode |}.

(** [MultiResolver.getResolveValidator] *)
Definition getResolveValidator (m : MultiResolver) (name : string)
  : list ResolveValidator * option error :=
  let rs := default [] (resolvers m !! "") in
  let tld := path_Ext name in
  let sel :=
    match tld with
    | EmptyString => inr tld
    | String _ tld1 =>
        (* tld = tld[1:] *)
        match resolvers m !! tld1 with
        | Some rstld => inl rstld
        | None => inr tld1
        end
    end in
  match sel with
  | inl rstld => (rstld, None)
  | inr tld =>
      if (length rs =? 0)%nat then (rs, Some (NoResolverError tld))
      else (rs, None)
  end.

(** The TLD token [getResolveValidator] looks up and reports. *)
Definition tld_of (name : string) : string :=
  match path_Ext name with
  | EmptyString => ""
  | String _ tld1 => tld1
  end.

(** The loop of [MultiResolver.Resolve] over the selected chain. [h] and
    [err] are the named results; the first component of the value is the
    sequence of backends whose [Resolve] was called, in call order. *)
Fixpoint Resolve_loop (rs : list ResolveValidator) (addr : string)
    (h : common_Hash) (err : option error)
  : list ResolveValidator * (common_Hash * option error) :=
  match rs with
  | [] => ([], (h, err))
  | r :: rs' =>
      let '(h', err') := rv_Resolve r addr in
      match err' with
      | None => ([r], (h', err'))
      | Some _ =>
          let '(called, res) := Resolve_loop rs' addr h' err' in
          (r :: called, res)
      end
  end.

(** [MultiResolver.Resolve], with the backends it called. *)
Definition MultiResolver_Resolve_calls (m : MultiResolver) (addr : string)
  : list ResolveValidator * (common_Hash * option error) :=
  let h := common_Hash_zero in
  let '(rs, err) := getResolveValidator m addr in
  match err with
  | Some _ => ([], (h, err))
  | None => Resolve_loop rs addr h err
  end.

(** [MultiResolver.Resolve] *)
Definition MultiResolver_Resolve (m : MultiResolver) (addr : string)
  : common_Hash * option error :=
  snd (MultiResolver_Resolve_calls m addr).

(** ** Collaborators of the façade

    [Api] works on objects of other files and packages. Their types and
    methods are interfaces here; every definition below is written
    against these interfaces only. *)

(** Results of calls whose value is only read when [err == nil]. *)
Inductive result (A : Type) : Type :=
| Ok (a : A)
| Err (e : error).
Arguments Ok {A} a.
Arguments Err {A} e.

(** The [Resolver] interface held in [Api.dns]. *)
Record Resolver : Type := {
  Resolver_Resolve : string -> common_Hash * option error
}.

(** A [MultiResolver] used as a [Resolver]. *)
Definition MultiResolver_as_Resolver (m : MultiResolver) : Resolver :=
  {| Resolver_Resolve := MultiResolver_Resolve m |}.

(** [URI] of uri.go, with the methods [Api] calls. [URI_Key] is [None]
    for Go's [nil] key. *)
Record URI : Type := {
  URI_Scheme : string;
  URI_Addr : string;
  URI_Path : string
}.

Class UriOps : Type := {
  Parse : string -> result URI;
  URI_Immutable : URI -> bool;
  URI_Key : URI -> option storage_Key
}.

(** [ManifestEntry] of manifest.go. *)
Record ManifestEntry : Type := {
  Entry_Hash : string;
  Entry_Path : string;
  Entry_ContentType : string;
  Entry_Mode : Z;
  Entry_Size : Z;
  Entry_ModTime : Z;
  Entry_Status : Z
}.

(** [multihash.DecodedMultihash] *)
Record DecodedMultihash : Type := {
  Multihash_Code : Z;
  Multihash_Length : Z;
  Multihash_Digest : list byte
}.

(** Package [storage]: the content store, its readers and the resource
    handler. [DPA_Store] and [LookupLatestByName] change the object they
    are called on, so they return its new state. A [Read] into a buffer
    of [n] bytes returns the bytes it put there. *)
Class Storage : Type := {
  DPA : Type;
  LazyChunkReader : Type;
  ResourceHandler : Type;
  resource_t : Type;
  DPA_Store : DPA -> list byte -> Z -> bool -> (storage_Key * option error) * DPA;
  DPA_Retrieve : DPA -> storage_Key -> LazyChunkReader * bool;
  LazyChunkReader_Read :
    LazyChunkReader -> nat -> (list byte * option error) * LazyChunkReader;
  resource_Multihash : resource_t -> bool;
  LookupLatestByName :
    ResourceHandler -> string -> result resource_t * ResourceHandler;
  GetContent : ResourceHandler -> string -> result (storage_Key * list byte);
  Key_String : storage_Key -> string
}.

(** Packages [multihash] and [common]. *)
Class Codecs : Type := {
  multihash_Decode : list byte -> result DecodedMultihash;
  multihash_KECCAK_256 : Z;
  common_Hex2Bytes : string -> list byte
}.

(** manifest.go: loading a trie, looking up a path, and the manifest
    writer. *)
Class Manifest `{Storage} : Type := {
  manifestTrie : Type;
  ManifestWriter : Type;
  ResourceContentType : string;
  loadManifest : DPA -> storage_Key -> result manifestTrie;
  getEntry : manifestTrie -> string -> option ManifestEntry * string;
  NewManifestWriter : DPA -> storage_Key -> result ManifestWriter;
  ManifestWriter_AddEntry :
    ManifestWriter -> list byte -> ManifestEntry -> result storage_Key * ManifestWriter;
  ManifestWriter_RemoveEntry : ManifestWriter -> string -> option error * ManifestWriter;
  ManifestWriter_Store : ManifestWriter -> result storage_Key
}.

(** Go library functions of [path/filepath], [mime] and [time]. *)
Class GoLib : Type := {
  filepath_Join : string -> string -> string;
  filepath_Ext : string -> string;
  mime_TypeByExtension : string -> string;
  time_Now : Z
}.

(** [net/http] status codes *)
Definition http_StatusOK : Z := 200.
Definition http_StatusMultipleChoices : Z := 300.
Definition http_StatusNotFound : Z := 404.
Definition http_StatusUnprocessableEntity : Z := 422.
Definition http_StatusInternalServerError : Z := 500.

(** ** The façade *)

Record Api `{Storage} : Type := {
  resource : ResourceHandler;
  dpa : DPA;
  dns : option Resolver
}.

(** [Api.Resolve]. The first component lists the addresses passed to
    [self.dns.Resolve], in call order. *)
Definition Api_Resolve_calls `{Storage, UriOps} (self : Api) (uri : URI)
  : list string * (option storage_Key * option error) :=
  if URI_Immutable uri then
    match URI_Key uri with
    | None =>
        ([], (None, Some (Errorf "immutable address not a content hash: %q"
                            [URI_Addr uri])))
    | Some key => ([], (Some key, None))
    end
  else
    match dns self with
    | None =>
        match URI_Key uri with
        | None =>
            ([], (None, Some (Errorf "no DNS to resolve name: %q" [URI_Addr uri])))
        | Some key => ([], (Some key, None))
        end
    | Some d =>
        let '(resolved, err) := Resolver_Resolve d (URI_Addr uri) in
        let calls := [URI_Addr uri] in
        match err with
        | None => (calls, (Some resolved, None))
        | Some _ =>
            match URI_Key uri with
            | None => (calls, (None, err))
            | Some key => (calls, (Some key, None))
            end
        end
    end.

Definition Api_Resolve `{Storage, UriOps} (self : Api) (uri : URI)
  : option storage_Key * option error :=
  snd (Api_Resolve_calls self uri).

(** The double quote character, and the manifest text of [Api.Put]:
    [fmt.Sprintf] of the one-entry template with the key and the content
    type. *)
Definition dq : string := String (ascii_of_nat 34) EmptyString.

Definition Put_manifest `{Storage} (key : storage_Key) (contentType : string) : string :=
  "{" +:+ dq +:+ "entries" +:+ dq +:+ ":[{" +:+ dq +:+ "hash" +:+ dq +:+ ":" +:+ dq
  +:+ Key_String key
  +:+ dq +:+ "," +:+ dq +:+ "contentType" +:+ dq +:+ ":" +:+ dq
  +:+ contentType
  +:+ dq +:+ "}]}".

(** [Api.Put]: two writes to the content store; the value carries the
    store after them. The [wait] closure (completion of both writes) is
    not part of the model. *)
Definition Api_Put `{Storage} (self : Api) (content contentType : string)
    (toEncrypt : bool) : (option storage_Key * option error) * Api :=
  let r := list_byte_of_string content in
  let '((key, err), dpa1) :=
    DPA_Store (dpa self) r (Z.of_nat (String.length content)) toEncrypt in
  let self1 := {| resource := resource self; dpa := dpa1; dns := dns self |} in
  match err with
  | Some _ => ((None, err), self1)
  | None =>
      let manifest := Put_manifest key contentType in
      let r := list_byte_of_string manifest in
      let '((key, err), dpa2) :=
        DPA_Store dpa1 r (Z.of_nat (String.length manifest)) toEncrypt in
      let self2 := {| resource := resource self; dpa := dpa2; dns := dns self |} in
      match err with
      | Some _ => ((None, err), self2)
      | None => ((Some key, None), self2)
      end
  end.

(** The five results of [Api.Get]:
    [(reader, mimeType, status, contentKey, err)]. *)
Definition GetResult `{Storage} : Type :=
  (option LazyChunkReader * string * Z * option storage_Key * option error)%type.

(** The resource branch of [Api.Get] (the body of
    [if entry.ContentType == ResourceContentType]). [inl] is a [return]
    from [Get]; [inr] is the entry with which [Get] goes on. At that
    point the named results [reader], [mimeType] and [contentKey] still
    hold their zero values. *)
Definition Get_resource `{Storage, Codecs, Manifest} (self : Api)
    (path : string) (entry : ManifestEntry) : GetResult + ManifestEntry :=
  let reader : option LazyChunkReader := None in
  let mimeType := "" in
  let '(rsrc, rh) := LookupLatestByName (resource self) (Entry_Hash entry) in
  match rsrc with
  | Err e => inl (reader, mimeType, http_StatusNotFound, None, Some e)
  | Ok rsrc =>
      match GetContent rh (Entry_Hash entry) with
      | Err e => inl (reader, mimeType, http_StatusNotFound, None, Some e)
      | Ok (_, rsrcData) =>
          if resource_Multihash rsrc then
            match multihash_Decode rsrcData with
            | Err e =>
                let err := Some e in
                inl (reader, mimeType, http_StatusInternalServerError, None, err)
            | Ok decodedMultihash =>
                (* err of multihash.Decode, nil on this path *)
                let err : option error := None in
                if decide (Multihash_Code decodedMultihash <> multihash_KECCAK_256)
                then inl (reader, mimeType, http_StatusUnprocessableEntity, None, err)
                else
                  let manifestKey := Multihash_Digest decodedMultihash in
                  match loadManifest (dpa self) manifestKey with
                  | Err e => inl (reader, mimeType, http_StatusNotFound, None, Some e)
                  | Ok trie =>
                      match fst (getEntry trie path) with
                      | None =>
                          inl (reader, mimeType, http_StatusNotFound, None,
                               Some (Errorf
                                 "manifest (resource multihash) entry for '%s' not found"
                                 [path]))
                      | Some entry' => inr entry'
                      end
                  end
            end
          else
            inl (None, Entry_ContentType entry, http_StatusOK, None,
                 Some (ErrResourceReturn (Entry_Hash entry)))
      end
  end.

(** The tail of [Api.Get] once the entry to serve is known. *)
Definition Get_content `{Storage, Codecs} (self : Api) (entry : ManifestEntry)
  : GetResult :=
  let contentKey := Some (common_Hex2Bytes (Entry_Hash entry)) in
  let status := Entry_Status entry in
  if decide (status = http_StatusMultipleChoices)
  then (None, Entry_ContentType entry, status, contentKey, None)
  else
    let mimeType := Entry_ContentType entry in
    let '(reader, _) := DPA_Retrieve (dpa self) (common_Hex2Bytes (Entry_Hash entry)) in
    (Some reader, mimeType, status, contentKey, None).

(** [Api.Get] *)
Definition Api_Get `{Storage, Codecs, Manifest} (self : Api)
    (manifestKey : storage_Key) (path : string) : GetResult :=
  match loadManifest (dpa self) manifestKey with
  | Err e => (None, "", http_StatusNotFound, None, Some e)
  | Ok trie =>
      match fst (getEntry trie path) with
      | Some entry =>
          if decide (Entry_ContentType entry = ResourceContentType) then
            match Get_resource self path entry with
            | inl ret => ret
            | inr entry' => Get_content self entry'
            end
          else Get_content self entry
      | None =>
          (None, "", http_StatusNotFound, None,
           Some (Errorf "manifest entry for '%s' not found" [path]))
      end
  end.

(** ** Readers and [io.ReadAtLeast] *)

(** [io.Reader]: [io_Read r n] is [r.Read(p)] with [len(p) = n]; it
    returns the bytes placed at the start of [p], the error, and the
    reader after the call. *)
Class io_Reader (R : Type) : Type := {
  io_Read : R -> nat -> (list byte * option error) * R
}.

(** [bytes.Reader]: the data and the read position. *)
Record bytes_Reader : Type := {
  br_s : list byte;
  br_i : nat
}.

Definition bytes_NewReader (b : list byte) : bytes_Reader :=
  {| br_s := b; br_i := 0 |}.

(** [bytes.Reader.Read] *)
Definition bytes_Reader_Read (r : bytes_Reader) (n : nat)
  : (list byte * option error) * bytes_Reader :=
  if (length (br_s r) <=? br_i r)%nat then (([], Some io_EOF), r)
  else
    let copied := take n (drop (br_i r) (br_s r)) in
    ((copied, None), {| br_s := br_s r; br_i := (br_i r + length copied)%nat |}).

#[global] Instance bytes_Reader_io : io_Reader bytes_Reader :=
  {| io_Read := bytes_Reader_Read |}.

#[global] Instance LazyChunkReader_io `{Storage} : io_Reader LazyChunkReader :=
  {| io_Read := LazyChunkReader_Read |}.

(** The loop of [io.ReadAtLeast]: [for n < min && err == nil]. Each
    round reads into [buf[n:]]. *)
Fixpoint ReadAtLeast_loop {R} `{io_Reader R} (fuel : nat) (r : R)
    (buf : list byte) (min n : Z) (err : option error)
  : outcome (R * list byte * Z * option error) :=
  if (n <? min) && bool_decide (err = None) then
    match fuel with
    | O => OutOfFuel
    | S fuel' =>
        let room := (length buf - Z.to_nat n)%nat in
        let '((bs, err'), r') := io_Read r room in
        let bs := take room bs in
        let buf' := take (Z.to_nat n) buf ++ bs ++ drop (Z.to_nat n + length bs) buf in
        ReadAtLeast_loop fuel' r' buf' min (n + Z.of_nat (length bs)) err'
    end
  else Done (r, buf, n, err).

(** [io.ReadAtLeast(r, buf, min)]: the reader and the buffer after the
    call, and the results [(n, err)]. *)
Definition io_ReadAtLeast {R} `{io_Reader R} (fuel : nat) (r : R)
    (buf : list byte) (min : Z) : outcome (R * list byte * Z * option error) :=
  if Z.of_nat (length buf) <? min then Done (r, buf, 0, Some io_ErrShortBuffer)
  else
    '(r, buf, n, err) ← ReadAtLeast_loop fuel r buf min 0 None;
    let err :=
      if min <=? n then None
      else if (0 <? n) && bool_decide (err = Some io_EOF)
           then Some io_ErrUnexpectedEOF
           else err in
    mret (r, buf, n, err).

(** [make([]byte, n)]; the upper limit on [n] is not modelled. *)
Definition make_bytes (n : Z) : outcome (list byte) :=
  if n <? 0 then Panic MakeSliceLenOutOfRange
  else Done (replicate (Z.to_nat n) x00).

(** [buf[lo:]] on a byte slice whose capacity is its length. *)
Definition bytes_slice_from (buf : list byte) (lo : Z) : outcome (list byte) :=
  if (0 <=? lo) && (lo <=? Z.of_nat (length buf))
  then Done (drop (Z.to_nat lo) buf)
  else Panic SliceBoundsOutOfRange.

(** ** File edits *)

(** [int64] addition wraps around. *)
Definition wrap64 (z : Z) : Z := (z + 2 ^ 63) mod 2 ^ 64 - 2 ^ 63.

(** [buffSize] of [Api.AppendFile] after the first [if]. *)
Definition AppendFile_buffSize (offset addSize existingSize : Z) : Z :=
  let buffSize := wrap64 (offset + addSize) in
  if buffSize <? existingSize then existingSize else buffSize.

(** The calls of [io.ReadAtLeast] made by [Api.AppendFile], with their
    [min] argument. *)
Inductive read_call : Type :=
| ReadOld (min : Z)
| ReadNew (min : Z).

(** The first part of [Api.AppendFile]: the bytes of [buf] handed to
    [bytes.NewReader] as the new file content, and the reads made. *)
Definition AppendFile_buf `{Storage} (fuel : nat) (self : Api)
    (existingSize : Z) (content : list byte) (oldKey : storage_Key)
    (offset addSize : Z) : outcome (list byte * list read_call) :=
  let buffSize := AppendFile_buffSize offset addSize existingSize in
  buf ← make_bytes buffSize;
  let '(oldReader, _) := DPA_Retrieve (dpa self) oldKey in
  '(oldReader, buf, _, _) ← io_ReadAtLeast fuel oldReader buf offset;
  let newReader := bytes_NewReader content in
  sub ← bytes_slice_from buf offset;
  '(_, sub, _, _) ← io_ReadAtLeast fuel newReader sub addSize;
  let buf := take (Z.to_nat offset) buf ++ sub in
  if buffSize <? existingSize then
    sub ← bytes_slice_from buf addSize;
    '(_, sub, _, _) ← io_ReadAtLeast fuel oldReader sub buffSize;
    mret (take (Z.to_nat addSize) buf ++ sub,
          [ReadOld offset; ReadNew addSize; ReadOld buffSize])
  else
    mret (buf, [ReadOld offset; ReadNew addSize]).

(** "trim the root dir we added":
<<
  if path[:1] == "/" { path = path[1:] }
>>  *)
Definition trim_root_dir (path : string) : outcome string :=
  p ← str_slice_to path 1;
  if decide (p = "/") then str_slice_from path 1 else mret path.

(** [Api.AddFile] *)
Definition Api_AddFile `{Storage, UriOps, Manifest, GoLib} (self : Api)
    (mhash path fname : string) (content : list byte) (nameresolver : bool)
  : outcome (option storage_Key * string * option error) :=
  match Parse ("bzz:/" +:+ mhash) with
  | Err e => mret (None, "", Some e)
  | Ok uri =>
      match Api_Resolve self uri with
      | (_, Some e) => mret (None, "", Some e)
      | (mkey, None) =>
          path ← trim_root_dir path;
          let entry :=
            {| Entry_Hash := "";
               Entry_Path := filepath_Join path fname;
               Entry_ContentType := mime_TypeByExtension (filepath_Ext fname);
               Entry_Mode := 448;
               Entry_Size := Z.of_nat (length content);
               Entry_ModTime := time_Now;
               Entry_Status := 0 |} in
          match NewManifestWriter (dpa self) (default [] mkey) with
          | Err e => mret (None, "", Some e)
          | Ok mw =>
              match ManifestWriter_AddEntry mw content entry with
              | (Err e, _) => mret (None, "", Some e)
              | (Ok fkey, mw) =>
                  match ManifestWriter_Store mw with
                  | Err e => mret (None, "", Some e)
                  | Ok newMkey => mret (Some fkey, Key_String newMkey, None)
                  end
              end
          end
      end
  end.

(** [Api.RemoveFile] *)
Definition Api_RemoveFile `{Storage, UriOps, Manifest, GoLib} (self : Api)
    (mhash path fname : string) (nameresolver : bool)
  : outcome (string * option error) :=
  match Parse ("bzz:/" +:+ mhash) with
  | Err e => mret ("", Some e)
  | Ok uri =>
      match Api_Resolve self uri with
      | (_, Some e) => mret ("", Some e)
      | (mkey, None) =>
          path ← trim_root_dir path;
          match NewManifestWriter (dpa self) (default [] mkey) with
          | Err e => mret ("", Some e)
          | Ok mw =>
              match ManifestWriter_RemoveEntry mw (filepath_Join path fname) with
              | (Some e, _) => mret ("", Some e)
              | (None, mw) =>
                  match ManifestWriter_Store mw with
                  | Err e => mret ("", Some e)
                  | Ok newMkey => mret (Key_String newMkey, None)
                  end
              end
          end
      end
  end.

(** [Api.AppendFile] *)
Definition Api_AppendFile `{Storage, UriOps, Manifest, GoLib} (fuel : nat)
    (self : Api) (mhash path fname : string) (existingSize : Z)
    (content : list byte) (oldKey : storage_Key) (offset addSize : Z)
    (nameresolver : bool)
  : outcome (option storage_Key * string * option error) :=
  '(buf, _) ← AppendFile_buf fuel self existingSize content oldKey offset addSize;
  let totalSize := Z.of_nat (length buf) in
  match Parse ("bzz:/" +:+ mhash) with
  | Err e => mret (None, "", Some e)
  | Ok uri =>
      match Api_Resolve self uri with
      | (_, Some e) => mret (None, "", Some e)
      | (mkey, None) =>
          path ← trim_root_dir path;
          match NewManifestWriter (dpa self) (default [] mkey) with
          | Err e => mret (None, "", Some e)
          | Ok mw =>
              match ManifestWriter_RemoveEntry mw (filepath_Join path fname) with
              | (Some e, _) => mret (None, "", Some e)
              | (None, mw) =>
                  let entry :=
                    {| Entry_Hash := "";
                       Entry_Path := filepath_Join path fname;
                       Entry_ContentType := mime_TypeByExtension (filepath_Ext fname);
                       Entry_Mode := 448;
                       Entry_Size := totalSize;
                       Entry_ModTime := time_Now;
                       Entry_Status := 0 |} in
                  match ManifestWriter_AddEntry mw buf entry with
                  | (Err e, _) => mret (None, "", Some e)
                  | (Ok fkey, mw) =>
                      match ManifestWriter_Store mw with
                      | Err e => mret (None, "", Some e)
                      | Ok newMkey => mret (Some fkey, Key_String newMkey, None)
                      end
                  end
              end
          end
      end
  end.

(** ** Auxiliary notions used in the statements *)

(** Every registered chain has a backend: the state [NewMultiResolver]
    builds, since a chain only comes into being by an [append]. *)
Definition chains_nonempty (m : MultiResolver) : Prop :=
  forall tld rs, resolvers m !! tld = Some rs -> rs <> [].

(** The backend fails on [addr]. *)
Definition fails_on (addr : string) (r : ResolveValidator) : Prop :=
  snd (rv_Resolve r addr) <> None.

(** [m] with the default chain replaced by [dflt]. *)
Definition with_default (dflt : list ResolveValidator) (m : MultiResolver)
  : MultiResolver :=
  {| resolvers := <["" := dflt]> (resolvers m); nameHash := nameHash m |}.

(** A reader positioned at the start of [bs]: a [Read] into [n] bytes
    gives the first [n] bytes of [bs]. *)
Definition reader_holds `{Storage} (r : LazyChunkReader) (bs : list byte) : Prop :=
  forall n, fst (fst (LazyChunkReader_Read r n)) = take n bs.


(** [Get] reaches the resource branch for [entry] and the resource
    handler delivers the update [rsrc] with payload [data]. *)
Definition resource_entry `{Storage, Codecs, Manifest} (self : Api)
    (manifestKey : storage_Key) (path : string) (entry : ManifestEntry)
    (rsrc : resource_t) (data : list byte) : Prop :=
  exists trie rh k,
    loadManifest (dpa self) manifestKey = Ok trie /\
    fst (getEntry trie path) = Some entry /\
    Entry_ContentType entry = ResourceContentType /\
    LookupLatestByName (resource self) (Entry_Hash entry) = (Ok rsrc, rh) /\
    GetContent rh (Entry_Hash entry) = Ok (k, data).

(** What [AddFile], [RemoveFile] and [AppendFile] do before they reach
    the trim of the directory path: they return the error of [Parse] or
    of [Resolve], if there is one. *)
Definition before_trim `{Storage, UriOps} {A} (self : Api) (mhash : string)
    (on_error : error -> A) (reached : outcome A) : outcome A :=
  match Parse ("bzz:/" +:+ mhash) with
  | Err e => Done (on_error e)
  | Ok uri =>
      match Api_Resolve self uri with
      | (_, Some e) => Done (on_error e)
      | (_, None) => reached
      end
  end.

(** ** An in-memory instance of the collaborators

    Small executable stand-ins for the content store, the resource
    handler, the manifest layer, the codecs and the URI parser, on which
    the operations above can be run on concrete inputs. *)
Module Mem.

(** Lower-case hexadecimal, as [Key.String] prints and
    [common.Hex2Bytes] reads. *)
Definition hex_digit (n : N) : ascii :=
  default "0"%char (String.get (N.to_nat n) "0123456789abcdef").

Definition hex_of_bytes (bs : list byte) : string :=
  foldr (fun b s =>
           let n := Byte.to_N b in
           String (hex_digit (n / 16)) (String (hex_digit (n mod 16)) s))
        EmptyString bs.

Definition hex_val (c : ascii) : option N :=
  let n := N_of_ascii c in
  if (48 <=? n)%N && (n <=? 57)%N then Some (n - 48)%N
  else if (97 <=? n)%N && (n <=? 102)%N then Some (n - 87)%N
  else None.

Fixpoint bytes_of_hex (s : string) : option (list byte) :=
  match s with
  | EmptyString => Some []
  | String c1 (String c2 rest) =>
      hi ← hex_val c1;
      lo ← hex_val c2;
      b ← Byte.of_N (hi * 16 + lo);
      bs ← bytes_of_hex rest;
      Some (b :: bs)
  | String _ EmptyString => None
  end.

(** Blocks by key; the key of a block is the block itself. *)
Definition blocks : Type := list (storage_Key * list byte).

Definition block_lookup (d : blocks) (k : storage_Key) : option (list byte) :=
  snd <$> find (fun kv => bool_decide (fst kv = k)) d.

(** Resource updates by name: the multihash flag and the payload. *)
Definition updates : Type := list (string * (bool * list byte)).

Definition update_lookup (rh : updates) (name : string) : option (bool * list byte) :=
  snd <$> find (fun kv => bool_decide (fst kv = name)) rh.

#[global] Instance storage : Storage := {|
  DPA := blocks;
  LazyChunkReader := bytes_Reader;
  ResourceHandler := updates;
  resource_t := bool;
  DPA_Store := fun d data size toEncrypt => ((data, None), (data, data) :: d);
  DPA_Retrieve := fun d k => (bytes_NewReader (default [] (block_lookup d k)), false);
  LazyChunkReader_Read := bytes_Reader_Read;
  resource_Multihash := fun r => r;
  LookupLatestByName := fun rh name =>
    match update_lookup rh name with
    | Some (mh, _) => (Ok mh, rh)
    | None => (Err (ErrCollaborator "resource not found"), rh)
    end;
  GetContent := fun rh name =>
    match update_lookup rh name with
    | Some (_, data) => Ok ([], data)
    | None => Err (ErrCollaborator "resource not found")
    end;
  Key_String := hex_of_bytes
|}.

(** A digest record: one byte of algorithm code, one byte of length,
    then the digest. *)
#[global] Instance codecs : Codecs := {|
  multihash_Decode := fun bs =>
    match bs with
    | code :: len :: digest =>
        if bool_decide (Byte.to_N len = N.of_nat (length digest))
        then Ok {| Multihash_Code := Z.of_N (Byte.to_N code);
                   Multihash_Length := Z.of_N (Byte.to_N len);
                   Multihash_Digest := digest |}
        else Err (ErrCollaborator "multihash length inconsistent")
    | _ => Err (ErrCollaborator "multihash too short")
    end;
  multihash_KECCAK_256 := 27;
  common_Hex2Bytes := fun s => default [] (bytes_of_hex s)
|}.

(** Reading the one-entry manifest text written by [Api.Put]. *)
Fixpoint strip_prefix (p s : string) : option string :=
  match p, s with
  | EmptyString, _ => Some s
  | String a p', String b s' =>
      if Ascii.eqb a b then strip_prefix p' s' else None
  | String _ _, EmptyString => None
  end.

Fixpoint until_dq (s : string) : option (string * string) :=
  match s with
  | EmptyString => None
  | String c rest =>
      if Ascii.eqb c (ascii_of_nat 34) then Some (EmptyString, rest)
      else '(a, b) ← until_dq rest; Some (String c a, b)
  end.

Definition read_manifest (s : string) : option ManifestEntry :=
  s ← strip_prefix ("{" +:+ dq +:+ "entries" +:+ dq +:+ ":[{" +:+ dq
                    +:+ "hash" +:+ dq +:+ ":" +:+ dq) s;
  '(h, s) ← until_dq s;
  s ← strip_prefix ("," +:+ dq +:+ "contentType" +:+ dq +:+ ":" +:+ dq) s;
  '(ct, s) ← until_dq s;
  if decide (s = "}]}") then
    Some {| Entry_Hash := h; Entry_Path := ""; Entry_ContentType := ct;
            Entry_Mode := 0; Entry_Size := 0; Entry_ModTime := 0;
            Entry_Status := 0 |}
  else None.

(** A trie is the list of its entries; lookup is by exact path. The
    manifest writer keeps the entries and stores nothing. *)
#[global] Instance manifest : Manifest := {|
  manifestTrie := list ManifestEntry;
  ManifestWriter := list ManifestEntry;
  ResourceContentType := "application/bzz-resource";
  loadManifest := fun d k =>
    match block_lookup d k with
    | None => Err (ErrCollaborator "manifest not found")
    | Some bs =>
        match read_manifest (string_of_list_byte bs) with
        | Some e => Ok [e]
        | None => Err (ErrCollaborator "manifest unreadable")
        end
    end;
  getEntry := fun trie path =>
    (find (fun e => bool_decide (Entry_Path e = path)) trie, path);
  NewManifestWriter := fun d k => Ok [];
  ManifestWriter_AddEntry := fun mw data e => (Ok data, e :: mw);
  ManifestWriter_RemoveEntry := fun mw path =>
    (None, filter (fun e => Entry_Path e <> path) mw);
  ManifestWriter_Store := fun mw => Ok []
|}.

(** Addresses: [bzzr:/] marks an immutable address; a key is an
    address of 64 hex digits. *)
#[global] Instance uri : UriOps := {|
  Parse := fun s =>
    match strip_prefix "bzzr:/" s with
    | Some a => Ok {| URI_Scheme := "bzzr"; URI_Addr := a; URI_Path := "" |}
    | None =>
        match strip_prefix "bzz:/" s with
        | Some a => Ok {| URI_Scheme := "bzz"; URI_Addr := a; URI_Path := "" |}
        | None => Err (ErrCollaborator "unknown scheme")
        end
    end;
  URI_Immutable := fun u => bool_decide (URI_Scheme u = "bzzr");
  URI_Key := fun u =>
    if (String.length (URI_Addr u) =? 64)%nat then bytes_of_hex (URI_Addr u)
    else None
|}.

#[global] Instance golib : GoLib := {|
  filepath_Join := fun a b => a +:+ "/" +:+ b;
  filepath_Ext := path_Ext;
  mime_TypeByExtension := fun _ => "";
  time_Now := 0
|}.

(** Backends that always fail, or always answer with one hash. *)
Definition failing (msg : string) : ResolveValidator :=
  {| rv_Resolve := fun _ => (common_Hash_zero, Some (ErrCollaborator msg));
     rv_Owner := fun _ => ([], Some (ErrCollaborator msg));
     rv_HeaderByNumber := fun _ => (None, Some (ErrCollaborator msg)) |}.

Definition answering (h : common_Hash) : ResolveValidator :=
  {| rv_Resolve := fun _ => (h, None);
     rv_Owner := fun _ => ([], None);
     rv_HeaderByNumber := fun n => (Some n, None) |}.

End Mem.

(** ** Concrete inputs *)
Module Ex.
Import Mem.

(** A default chain that answers, and a chain for [test] whose only
    backend fails. *)
Definition chain_m : MultiResolver :=
  NewMultiResolver (fun _ => [])
    [MultiResolverOptionWithResolver (answering [x01]) "";
     MultiResolverOptionWithResolver (failing "down") "test"].

(** Two backends for [eth], the first failing. *)
Definition chain_eth : MultiResolver :=
  NewMultiResolver (fun _ => [])
    [MultiResolverOptionWithResolver (failing "first") "eth";
     MultiResolverOptionWithResolver (answering [x02]) "eth"].

(** A façade whose resolver chain is [chain_m]; its resource handler
    knows one raw update and one digest record of algorithm 18. *)
Definition api_m : Api :=
  {| resource := [("raw.res", (false, [x01; x02]));
                  ("sha.res", (true, [x12; x01; xaa]))];
     dpa := [];
     dns := Some (MultiResolver_as_Resolver chain_m) |}.

(** The manifest of a resource pointer: one pathless entry whose hash
    field is the resource name and whose content type is the marker. *)
Definition resource_manifest (name : string) : list byte :=
  list_byte_of_string
    ("{" +:+ dq +:+ "entries" +:+ dq +:+ ":[{" +:+ dq +:+ "hash" +:+ dq +:+ ":"
     +:+ dq +:+ name +:+ dq +:+ "," +:+ dq +:+ "contentType" +:+ dq +:+ ":"
     +:+ dq +:+ "application/bzz-resource" +:+ dq +:+ "}]}").

(** A façade whose store holds the pointers to the two resources of
    [api_m] under the keys [0a] and [0b]. *)
Definition api_res : Api :=
  {| resource := resource api_m;
     dpa := [([x0a], resource_manifest "raw.res");
             ([x0b], resource_manifest "sha.res")];
     dns := None |}.

(** The entry the manifest layer reads from [resource_manifest]. *)
Definition resource_pointer (name : string) : ManifestEntry :=
  {| Entry_Hash := name; Entry_Path := "";
     Entry_ContentType := "application/bzz-resource";
     Entry_Mode := 0; Entry_Size := 0; Entry_ModTime := 0;
     Entry_Status := 0 |}.

(** The digest record stored as the update of [sha.res]. *)
Definition sha_record : DecodedMultihash :=
  {| Multihash_Code := 18; Multihash_Length := 1; Multihash_Digest := [xaa] |}.

(** A façade with an empty store and no resources; the keys and the
    store after [Put] of ["hi"] as ["text/plain"]. *)
Definition api_empty : Api := {| resource := []; dpa := []; dns := None |}.


(** A façade whose store holds the old file content [07 08] under
    the key [0c]. *)
Definition old_content : list byte := [x07; x08].

Definition api_old : Api :=
  {| resource := []; dpa := [([x0c], old_content)]; dns := None |}.

Definition hash64 : string :=
  "00000000000000000000000000000000000000000000000000000000000000ff".

Definition uri_immutable_name : URI :=
  {| URI_Scheme := "bzzr"; URI_Addr := "x.test"; URI_Path := "" |}.

Definition uri_name_failing : URI :=
  {| URI_Scheme := "bzz"; URI_Addr := "x.test"; URI_Path := "" |}.
End Ex.

(** ** More of the resolver chain *)

(** [MultiResolver.SetNameHash] *)
Definition SetNameHash (m : MultiResolver) (f : string -> common_Hash)
  : MultiResolver :=
  {| resolvers := resolvers m; nameHash := f |}.

(** The loop of [MultiResolver.ValidateOwner]. [err] is the error
    variable on entry; the first component of the value lists the
    backends whose [Owner] was called. *)
Fixpoint ValidateOwner_loop (rs : list ResolveValidator) (node : common_Hash)
    (address : common_Address) (err : option error)
  : list ResolveValidator * (bool * option error) :=
  match rs with
  | [] => ([], (false, err))
  | r :: rs' =>
      let '(addr, err') := rv_Owner r node in
      match err' with
      | None => ([r], (bool_decide (addr = address), None))
      | Some _ =>
          let '(called, res) := ValidateOwner_loop rs' node address err' in
          (r :: called, res)
      end
  end.

(** [MultiResolver.ValidateOwner], with the backends it called. *)
Definition MultiResolver_ValidateOwner_calls (m : MultiResolver) (name : string)
    (address : common_Address) : list ResolveValidator * (bool * option error) :=
  let '(rs, err) := getResolveValidator m name in
  match err with
  | Some _ => ([], (false, err))
  | None => ValidateOwner_loop rs (nameHash m name) address err
  end.

Definition MultiResolver_ValidateOwner (m : MultiResolver) (name : string)
    (address : common_Address) : bool * option error :=
  snd (MultiResolver_ValidateOwner_calls m name address).

(** The loop of [MultiResolver.HeaderByNumber]. *)
Fixpoint HeaderByNumber_loop (rs : list ResolveValidator) (blockNr : Z)
    (err : option error) : list ResolveValidator * (option Z * option error) :=
  match rs with
  | [] => ([], (None, err))
  | r :: rs' =>
      let '(header, err') := rv_HeaderByNumber r blockNr in
      match err' with
      | None => ([r], (header, None))
      | Some _ =>
          let '(called, res) := HeaderByNumber_loop rs' blockNr err' in
          (r :: called, res)
      end
  end.

(** [MultiResolver.HeaderByNumber], with the backends it called. *)
Definition MultiResolver_HeaderByNumber_calls (m : MultiResolver) (name : string)
    (blockNr : Z) : list ResolveValidator * (option Z * option error) :=
  let '(rs, err) := getResolveValidator m name in
  match err with
  | Some _ => ([], (None, err))
  | None => HeaderByNumber_loop rs blockNr err
  end.

Definition MultiResolver_HeaderByNumber (m : MultiResolver) (name : string)
    (blockNr : Z) : option Z * option error :=
  snd (MultiResolver_HeaderByNumber_calls m name blockNr).

(** The owner lookup of the backend fails for [node]. *)
Definition owner_fails (node : common_Hash) (r : ResolveValidator) : Prop :=
  snd (rv_Owner r node) <> None.

(** The header lookup of the backend fails for [blockNr]. *)
Definition header_fails (blockNr : Z) (r : ResolveValidator) : Prop :=
  snd (rv_HeaderByNumber r blockNr) <> None.

(** The backends the options register for [tld], in option order. *)
Fixpoint backends_for (tld : string) (opts : list MultiResolverOption)
  : list ResolveValidator :=
  match opts with
  | [] => []
  | MultiResolverOptionWithResolver r t :: opts' =>
      if decide (t = tld) then r :: backends_for tld opts'
      else backends_for tld opts'
  | MultiResolverOptionWithNameHash _ :: opts' => backends_for tld opts'
  end.

(** No byte of the string is a dot or a slash. *)
Fixpoint plain_token (t : string) : bool :=
  match t with
  | EmptyString => true
  | String c t' =>
      negb (Ascii.eqb c ".") && negb (Ascii.eqb c "/") && plain_token t'
  end.

(** No byte of the string is a dot. *)
Fixpoint no_dot (s : string) : bool :=
  match s with
  | EmptyString => true
  | String c s' => negb (Ascii.eqb c ".") && no_dot s'
  end.

(** ** [Api.BuildDirectoryTree] *)

(** [manifestTrie.listWithPrefix]: the (entry, suffix) pairs handed to
    the callback, in call order, and the error returned. [error_Error]
    is the [Error] method of an error value. *)
Class ManifestList `{Storage} `{!Manifest} : Type := {
  listWithPrefix : manifestTrie -> string -> list (ManifestEntry * string) * option error;
  error_Error : error -> string
}.

(** The callback of [BuildDirectoryTree]:
    [manifestEntryMap[suffix] = entry]. *)
Definition record_entry (m : gmap string ManifestEntry)
    (visit : ManifestEntry * string) : gmap string ManifestEntry :=
  <[snd visit := fst visit]> m.

(** [Api.BuildDirectoryTree]; a nil key or map is [None]. *)
Definition Api_BuildDirectoryTree `{Storage, UriOps} `{!Manifest} `{!ManifestList}
    (self : Api) (mhash : string) (nameresolver : bool)
  : option storage_Key * option (gmap string ManifestEntry) * option error :=
  match Parse ("bzz:/" +:+ mhash) with
  | Err e => (None, None, Some e)
  | Ok uri =>
      match Api_Resolve self uri with
      | (_, Some e) => (None, None, Some e)
      | (key, None) =>
          match loadManifest (dpa self) (default [] key) with
          | Err e =>
              (None, None,
               Some (Errorf "can't load manifest %v: %v"
                       [Key_String (default [] key); error_Error e]))
          | Ok rootTrie =>
              let '(visits, err) := listWithPrefix rootTrie (URI_Path uri) in
              let manifestEntryMap := foldl record_entry ∅ visits in
              match err with
              | Some e =>
                  (None, None,
                   Some (Errorf "list with prefix failed %v: %v"
                           [Key_String (default [] key); error_Error e]))
              | None => (key, Some manifestEntryMap, None)
              end
          end
      end
  end.

(** The entry visited last with the suffix [s]. *)
Definition last_visit (s : string) (visits : list (ManifestEntry * string))
  : option ManifestEntry :=
  fst <$> last (filter (fun v => snd v = s) visits).

(** ** More concrete inputs *)
Module Ex2.
Import Mem.

#[global] Instance manifest_list : ManifestList := {|
  listWithPrefix := fun trie prefix =>
    (omap (fun e => (fun s => (e, s)) <$> strip_prefix prefix (Entry_Path e)) trie,
     None);
  error_Error := fun e =>
    match e with
    | ErrCollaborator msg => msg
    | NoResolverError tld => NoResolverError_Error tld
    | ErrResourceReturn key => ErrResourceReturn_Error key
    | Errorf format _ => format
    | io_EOF => "EOF"
    | io_ErrShortBuffer => "short buffer"
    | io_ErrUnexpectedEOF => "unexpected EOF"
    end
|}.

(** Owners: a backend that fails, and two that name an owner. *)
Definition owner_a : common_Address := [x0a].
Definition owner_b : common_Address := [x0b].

Definition owned_by (a : common_Address) : ResolveValidator :=
  {| rv_Resolve := fun _ => (common_Hash_zero, Some (ErrCollaborator "no hash"));
     rv_Owner := fun _ => (a, None);
     rv_HeaderByNumber := fun n => (Some n, None) |}.

Definition chain_owner : MultiResolver :=
  NewMultiResolver (fun _ => [])
    [MultiResolverOptionWithResolver (failing "first") "eth";
     MultiResolverOptionWithResolver (owned_by owner_a) "eth";
     MultiResolverOptionWithResolver (owned_by owner_b) "eth"].

(** A façade whose resolver answers every name, and an address that is
    itself a well-formed hash. *)
Definition api_answering : Api :=
  {| resource := []; dpa := [];
     dns := Some {| Resolver_Resolve := fun _ => ([x05], None) |} |}.

Definition uri_hash_name : URI :=
  {| URI_Scheme := "bzz"; URI_Addr := Ex.hash64; URI_Path := "" |}.

(** A store holding a digest record update that names, with the
    KECCAK-256 code, the manifest stored under [0a]: itself a resource
    pointer. *)
Definition api_keccak : Api :=
  {| resource := [("kec.res", (true, [x1b; x01; x0a]));
                  ("bad.res", (true, [x1b]))];
     dpa := [([x0a], Ex.resource_manifest "raw.res");
             ([x0d], Ex.resource_manifest "kec.res");
             ([x0e], Ex.resource_manifest "bad.res");
             ([x0f], Ex.resource_manifest "gone.res")];
     dns := None |}.

(** A manifest layer with one fixed trie: an exact leaf [a/b] and the
    ambiguous answer, with status 300, for the prefix [a/]. *)
Definition leaf_ab : ManifestEntry :=
  {| Entry_Hash := "0c"; Entry_Path := "a/b"; Entry_ContentType := "text/plain";
     Entry_Mode := 0; Entry_Size := 2; Entry_ModTime := 0; Entry_Status := 0 |}.

Definition ambiguous_a : ManifestEntry :=
  {| Entry_Hash := "0d"; Entry_Path := "a/";
     Entry_ContentType := "application/bzz-manifest+json";
     Entry_Mode := 0; Entry_Size := 0; Entry_ModTime := 0; Entry_Status := 300 |}.

Definition manifest_fixed : Manifest := {|
  manifestTrie := list ManifestEntry;
  ManifestWriter := list ManifestEntry;
  ResourceContentType := "application/bzz-resource";
  loadManifest := fun d k => Ok [leaf_ab; ambiguous_a];
  getEntry := fun trie path =>
    (find (fun e => bool_decide (Entry_Path e = path)) trie, path);
  NewManifestWriter := fun d k => Ok [];
  ManifestWriter_AddEntry := fun mw data e => (Ok data, e :: mw);
  ManifestWriter_RemoveEntry := fun mw path => (None, mw);
  ManifestWriter_Store := fun mw => Ok []
|}.

(** A façade whose store holds the old file content [07 08 09] under
    the key [0c], and the root manifest of one pathless entry under
    [hash64]. *)
Definition old3 : list byte := [x07; x08; x09].

Definition api_old3 : Api :=
  {| resource := []; dpa := [([x0c], old3)]; dns := None |}.

(** A façade whose store holds a one-entry manifest under the key
    written [hash64]. *)
Definition key64 : storage_Key := default [] (bytes_of_hex Ex.hash64).

Definition api_tree : Api :=
  {| resource := []; dpa := [(key64, Ex.resource_manifest "raw.res")];
     dns := None |}.

(** A content store that is full: every write fails and leaves the
    count of attempted writes. *)
Definition storage_full : Storage := {|
  DPA := nat;
  LazyChunkReader := bytes_Reader;
  ResourceHandler := unit;
  resource_t := bool;
  DPA_Store := fun d data size toEncrypt =>
    (([], Some (ErrCollaborator "store full")), S d);
  DPA_Retrieve := fun d k => (bytes_NewReader [], false);
  LazyChunkReader_Read := bytes_Reader_Read;
  resource_Multihash := fun r => r;
  LookupLatestByName := fun rh name => (Err (ErrCollaborator "no resources"), rh);
  GetContent := fun rh name => Err (ErrCollaborator "no resources");
  Key_String := hex_of_bytes
|}.

Definition api_full : @Api storage_full :=
  @Build_Api storage_full tt 0%nat None.
End Ex2.

(** * Properties *)

(** ** The resolver chain *)

Section resolver_chain.
Implicit Types (m : MultiResolver) (rs : list ResolveValidator).
Implicit Types (r : ResolveValidator) (name addr : string).

(** The constructor only ever builds non-empty chains. *)
Lemma apply_option_chains_nonempty o m :
  chains_nonempty m -> chains_nonempty (apply_option o m).
Proof.
  intros Hm tld rs. destruct o as [r t|f]; simpl; [|apply Hm].
  rewrite lookup_insert. case_decide.
  - intros [= <-]. by destruct (default [] _).
  - apply Hm.
Qed.

Lemma NewMultiResolver_chains_nonempty ens opts :
  chains_nonempty (NewMultiResolver ens opts).
Proof.
  unfold NewMultiResolver.
  assert (chains_nonempty {| resolvers := ∅; nameHash := ens |}) as H0.
  { intros tld rs. simpl. by rewrite lookup_empty. }
  revert H0. generalize {| resolvers := ∅; nameHash := ens |}.
  induction opts as [|o opts IH]; intros m Hm; simpl; [done|].
  apply IH. by apply apply_option_chains_nonempty.
Qed.

(** The backends called are an initial segment of the chain. *)
Lemma Resolve_loop_prefix rs addr h err :
  fst (Resolve_loop rs addr h err) `prefix_of` rs.
Proof.
  revert h err. induction rs as [|r rs IH]; intros h err; simpl; [done|].
  destruct (rv_Resolve r addr) as [h' [e|]]; simpl.
  - specialize (IH h' (Some e)).
    destruct (Resolve_loop rs addr h' (Some e)) as [called res]; simpl in *.
    by apply prefix_cons.
  - apply prefix_cons, prefix_nil.
Qed.

(** A chain in which every backend fails is walked to its end, and the
    results are those of its last backend. *)
Lemma Resolve_loop_all_fail rs r addr h err :
  Forall (fails_on addr) rs -> last rs = Some r ->
  Resolve_loop rs addr h err = (rs, rv_Resolve r addr).
Proof.
  revert h err. induction rs as [|r0 rs IH]; intros h err Hf Hl; [done|].
  apply Forall_cons in Hf as [Hr0 Hf]. simpl.
  unfold fails_on in Hr0.
  destruct (rv_Resolve r0 addr) as [h' [e|]] eqn:Er0; simpl in Hr0; [|done].
  destruct rs as [|r1 rs'].
  - simpl in *. injection Hl as <-. by rewrite Er0.
  - rewrite last_cons_cons in Hl. by rewrite (IH h' (Some e) Hf Hl).
Qed.

(** The first backend that succeeds ends the walk. *)
Lemma Resolve_loop_first_success pre r post addr h0 err0 h :
  Forall (fails_on addr) pre -> rv_Resolve r addr = (h, None) ->
  Resolve_loop (pre ++ r :: post) addr h0 err0 = (pre ++ [r], (h, None)).
Proof.
  revert h0 err0. induction pre as [|r0 pre IH]; intros h0 err0 Hf Hr; simpl.
  - by rewrite Hr.
  - apply Forall_cons in Hf as [Hr0 Hf]. unfold fails_on in Hr0.
    destruct (rv_Resolve r0 addr) as [h' [e|]]; simpl in Hr0; [|done].
    by rewrite (IH h' (Some e) Hf Hr).
Qed.

(** A name with a non-empty TLD token has an extension. *)
Lemma tld_of_nonempty name :
  tld_of name <> "" -> exists c, path_Ext name = String c (tld_of name).
Proof.
  unfold tld_of. destruct (path_Ext name) as [|c t]; [done|]. by exists c.
Qed.

(** Chain selection, by cases on what is registered. *)
Lemma getResolveValidator_tld m name rs :
  chains_nonempty m -> resolvers m !! tld_of name = Some rs ->
  getResolveValidator m name = (rs, None).
Proof.
  intros Hm Hrs. unfold getResolveValidator, tld_of in *.
  destruct (path_Ext name) as [|c t].
  - rewrite Hrs. simpl. destruct rs; [by apply Hm in Hrs|done].
  - by rewrite Hrs.
Qed.

Lemma getResolveValidator_default m name rs :
  chains_nonempty m ->
  resolvers m !! tld_of name = None -> resolvers m !! "" = Some rs ->
  getResolveValidator m name = (rs, None).
Proof.
  intros Hm Htld Hrs. unfold getResolveValidator, tld_of in *.
  destruct (path_Ext name) as [|c t]; [congruence|].
  rewrite Htld, Hrs. simpl. destruct rs; [by apply Hm in Hrs|done].
Qed.

Lemma getResolveValidator_none m name :
  resolvers m !! tld_of name = None -> resolvers m !! "" = None ->
  getResolveValidator m name = ([], Some (NoResolverError (tld_of name))).
Proof.
  intros Htld Hd. unfold getResolveValidator, tld_of in *.
  destruct (path_Ext name) as [|c t].
  - by rewrite Hd.
  - by rewrite Htld, Hd.
Qed.

(** C1: a name whose TLD token is non-empty and has a chain registered
    is resolved with that chain alone. The backends called form an
    initial segment of that chain; if all of them fail, every one of
    them was called and the hash and error returned are those of the
    last one; and neither the calls made nor the results change when
    the default chain is replaced by any other chain. *)
Theorem Resolve_uses_only_tld_chain m name rstld :
  tld_of name <> "" ->
  resolvers m !! tld_of name = Some rstld ->
  getResolveValidator m name = (rstld, None) /\
  fst (MultiResolver_Resolve_calls m name) `prefix_of` rstld /\
  (Forall (fails_on name) rstld ->
   fst (MultiResolver_Resolve_calls m name) = rstld /\
   forall r, last rstld = Some r ->
     MultiResolver_Resolve m name = rv_Resolve r name /\
     snd (MultiResolver_Resolve m name) <> None) /\
  (forall dflt,
     MultiResolver_Resolve_calls (with_default dflt m) name =
     MultiResolver_Resolve_calls m name).
Proof.
  intros Hne Hreg. destruct (tld_of_nonempty name Hne) as [c Hext].
  assert (forall m', resolvers m' !! tld_of name = Some rstld ->
            getResolveValidator m' name = (rstld, None)) as Hsel.
  { intros m' H'. unfold getResolveValidator. by rewrite Hext, H'. }
  assert (MultiResolver_Resolve_calls m name =
          Resolve_loop rstld name common_Hash_zero None) as Hcalls.
  { unfold MultiResolver_Resolve_calls. by rewrite (Hsel m Hreg). }
  split; [by apply Hsel|]. split; [|split].
  - rewrite Hcalls. apply Resolve_loop_prefix.
  - intros Hall. destruct rstld as [|r0 rs0] eqn:Ers.
    + split; [by rewrite Hcalls|]. by intros r [=].
    + rewrite <- Ers in *.
      assert (is_Some (last rstld)) as [rl Hrl].
      { rewrite Ers. clear. revert r0.
        induction rs0 as [|r1 rs0 IH]; intros r0; [by eexists|].
        rewrite last_cons_cons. apply IH. }
      unfold MultiResolver_Resolve. rewrite Hcalls.
      rewrite (Resolve_loop_all_fail _ rl _ _ _ Hall Hrl).
      split; [done|]. intros r Hr. simpl.
      assert (r = rl) as -> by congruence. split; [done|].
      assert (rl ∈ rstld) as Hin.
      { clear -Hrl. induction rstld as [|a l IH]; [done|].
        destruct l as [|b l].
        - injection Hrl as ->. apply list_elem_of_here.
        - rewrite last_cons_cons in Hrl. apply list_elem_of_further, IH, Hrl. }
      rewrite Forall_forall in Hall. by apply Hall.
  - intros dflt. unfold MultiResolver_Resolve_calls at 1.
    rewrite (Hsel (with_default dflt m)); [by rewrite Hcalls|].
    simpl. rewrite lookup_insert_ne; [done|]. by intros Heq; apply Hne.
Qed.

Lemma Resolve_uses_only_tld_chain_witness :
  tld_of "x.test" <> "" /\
  resolvers Ex.chain_m !! tld_of "x.test" = Some [Mem.failing "down"] /\
  MultiResolver_Resolve_calls Ex.chain_m "x.test" =
    ([Mem.failing "down"], (common_Hash_zero, Some (ErrCollaborator "down"))).
Proof.
  assert (tld_of "x.test" <> "") as H1 by (vm_compute; discriminate).
  assert (resolvers Ex.chain_m !! tld_of "x.test" = Some [Mem.failing "down"])
    as H2 by (vm_compute; reflexivity).
  split; [exact H1|]. split; [exact H2|].
  destruct (Resolve_uses_only_tld_chain Ex.chain_m "x.test" _ H1 H2)
    as (_ & _ & Hall & _).
  destruct Hall as [Hc Hr].
  { repeat constructor; vm_compute; discriminate. }
  destruct (Hr (Mem.failing "down") eq_refl) as [Hres _].
  unfold MultiResolver_Resolve in Hres.
  destruct (MultiResolver_Resolve_calls Ex.chain_m "x.test") as [calls res].
  simpl in Hc, Hres. by rewrite Hc, Hres.
Defined.

(** Chain selection and the walk over the selected chain, for any
    resolver whose registered chains are non-empty. *)
Lemma Resolve_selection_and_walk m name :
  chains_nonempty m ->
  (forall rs, resolvers m !! tld_of name = Some rs ->
     getResolveValidator m name = (rs, None)) /\
  (forall rs, resolvers m !! tld_of name = None ->
     resolvers m !! "" = Some rs ->
     getResolveValidator m name = (rs, None)) /\
  (resolvers m !! tld_of name = None -> resolvers m !! "" = None ->
     MultiResolver_Resolve_calls m name =
     ([], (common_Hash_zero, Some (NoResolverError (tld_of name))))) /\
  (forall rs, getResolveValidator m name = (rs, None) ->
     (forall pre r post h,
        rs = pre ++ r :: post -> Forall (fails_on name) pre ->
        rv_Resolve r name = (h, None) ->
        MultiResolver_Resolve_calls m name = (pre ++ [r], (h, None))) /\
     (forall r, Forall (fails_on name) rs -> last rs = Some r ->
        MultiResolver_Resolve_calls m name = (rs, rv_Resolve r name) /\
        snd (rv_Resolve r name) <> None)).
Proof.
  intros Hm. split; [|split; [|split]].
  - intros rs. by apply getResolveValidator_tld.
  - intros rs. by apply getResolveValidator_default.
  - intros Htld Hd. unfold MultiResolver_Resolve_calls.
    by rewrite getResolveValidator_none.
  - intros rs Hsel. unfold MultiResolver_Resolve_calls. rewrite Hsel. split.
    + intros pre r post h -> Hf Hr. by apply Resolve_loop_first_success.
    + intros r Hf Hl. split; [by apply Resolve_loop_all_fail|].
      assert (r ∈ rs) as Hin.
      { clear -Hl. induction rs as [|a l IH]; [done|].
        destruct l as [|b l].
        - injection Hl as ->. apply list_elem_of_here.
        - rewrite last_cons_cons in Hl. apply list_elem_of_further, IH, Hl. }
      rewrite Forall_forall in Hf. by apply Hf.
Qed.

(** C6: chain selection and the walk over the selected chain, for
    every resolver [NewMultiResolver] builds. With [tld] the TLD token
    of the name: the chain registered for [tld] is selected; failing
    that, the default chain; failing both, [Resolve] returns
    [NoResolverError tld] without calling any backend. In the selected
    chain the backends are called in order up to the first that
    succeeds, whose hash is returned; if all fail, all are called and
    the error returned is that of the last. *)
Theorem Resolve_selects_chain_and_walks_it ens opts name :
  let m := NewMultiResolver ens opts in
  (forall rs, resolvers m !! tld_of name = Some rs ->
     getResolveValidator m name = (rs, None)) /\
  (forall rs, resolvers m !! tld_of name = None ->
     resolvers m !! "" = Some rs ->
     getResolveValidator m name = (rs, None)) /\
  (resolvers m !! tld_of name = None -> resolvers m !! "" = None ->
     MultiResolver_Resolve_calls m name =
     ([], (common_Hash_zero, Some (NoResolverError (tld_of name))))) /\
  (forall rs, getResolveValidator m name = (rs, None) ->
     (forall pre r post h,
        rs = pre ++ r :: post -> Forall (fails_on name) pre ->
        rv_Resolve r name = (h, None) ->
        MultiResolver_Resolve_calls m name = (pre ++ [r], (h, None))) /\
     (forall r, Forall (fails_on name) rs -> last rs = Some r ->
        MultiResolver_Resolve_calls m name = (rs, rv_Resolve r name) /\
        snd (rv_Resolve r name) <> None)).
Proof.
  intros m. apply Resolve_selection_and_walk.
  apply NewMultiResolver_chains_nonempty.
Qed.

(** C6 at concrete inputs: a chain whose first backend fails and whose
    second answers; a name for which nothing is registered. *)
Lemma Resolve_selects_chain_and_walks_it_witness :
  MultiResolver_Resolve_calls Ex.chain_eth "swarm.eth" =
    ([Mem.failing "first"; Mem.answering [x02]], ([x02], None)) /\
  MultiResolver_Resolve_calls Ex.chain_eth "swarm.org" =
    ([], (common_Hash_zero, Some (NoResolverError "org"))).
Proof.
  destruct (Resolve_selects_chain_and_walks_it (fun _ => [])
              [MultiResolverOptionWithResolver (Mem.failing "first") "eth";
               MultiResolverOptionWithResolver (Mem.answering [x02]) "eth"]
              "swarm.eth") as (Hsel & _ & _ & Hwalk).
  destruct (Resolve_selects_chain_and_walks_it (fun _ => [])
              [MultiResolverOptionWithResolver (Mem.failing "first") "eth";
               MultiResolverOptionWithResolver (Mem.answering [x02]) "eth"]
              "swarm.org") as (_ & _ & Hnone & _).
  split.
  - destruct (Hwalk [Mem.failing "first"; Mem.answering [x02]]) as [Hfirst _].
    { apply Hsel. vm_compute. reflexivity. }
    apply (Hfirst [Mem.failing "first"] (Mem.answering [x02]) [] [x02]).
    + reflexivity.
    + repeat constructor. vm_compute. discriminate.
    + reflexivity.
  - apply Hnone; vm_compute; reflexivity.
Defined.
End resolver_chain.

(** ** [Api.Resolve] *)

Section api_resolve.
Context `{Storage, UriOps}.
Implicit Types (self : Api) (uri : URI).

(** C7: for an immutable URI, [Resolve] makes no call to the resolver
    chain; it returns the address as a key when [uri.Key()] gives one,
    and otherwise the "immutable address not a content hash" error
    with a nil key. *)
Theorem Resolve_immutable_never_calls_resolver self uri :
  URI_Immutable uri = true ->
  fst (Api_Resolve_calls self uri) = [] /\
  Api_Resolve self uri =
    match URI_Key uri with
    | Some key => (Some key, None)
    | None =>
        (None, Some (Errorf "immutable address not a content hash: %q"
                       [URI_Addr uri]))
    end.
Proof.
  intros Himm. unfold Api_Resolve, Api_Resolve_calls. rewrite Himm.
  by destruct (URI_Key uri).
Qed.

(** C8: for a URI that is not immutable, with a resolver configured
    whose [Resolve] fails with [e]: the resolver was asked once, for
    the URI's address; then the address is tried as a key, which is
    returned without error if there is one, and only otherwise [e] is
    returned. *)
Theorem Resolve_falls_back_to_hash_after_chain_error self uri d h e :
  URI_Immutable uri = false ->
  dns self = Some d ->
  Resolver_Resolve d (URI_Addr uri) = (h, Some e) ->
  fst (Api_Resolve_calls self uri) = [URI_Addr uri] /\
  Api_Resolve self uri =
    match URI_Key uri with
    | Some key => (Some key, None)
    | None => (None, Some e)
    end.
Proof.
  intros Himm Hd Hres. unfold Api_Resolve, Api_Resolve_calls.
  rewrite Himm, Hd, Hres. by destruct (URI_Key uri).
Qed.
End api_resolve.

Lemma Resolve_immutable_never_calls_resolver_witness :
  URI_Immutable Ex.uri_immutable_name = true /\
  Api_Resolve_calls Ex.api_m Ex.uri_immutable_name =
    ([], (None, Some (Errorf "immutable address not a content hash: %q"
                        ["x.test"]))).
Proof.
  assert (URI_Immutable Ex.uri_immutable_name = true) as Himm by reflexivity.
  split; [exact Himm|].
  destruct (Resolve_immutable_never_calls_resolver Ex.api_m _ Himm) as [Hc Hr].
  unfold Api_Resolve in Hr.
  destruct (Api_Resolve_calls Ex.api_m Ex.uri_immutable_name) as [calls res].
  simpl in Hc, Hr. rewrite Hc, Hr. reflexivity.
Defined.

Lemma Resolve_falls_back_to_hash_after_chain_error_witness :
  URI_Immutable Ex.uri_name_failing = false /\
  dns Ex.api_m = Some (MultiResolver_as_Resolver Ex.chain_m) /\
  Resolver_Resolve (MultiResolver_as_Resolver Ex.chain_m) "x.test" =
    (common_Hash_zero, Some (ErrCollaborator "down")) /\
  Api_Resolve Ex.api_m Ex.uri_name_failing =
    (None, Some (ErrCollaborator "down")).
Proof.
  assert (URI_Immutable Ex.uri_name_failing = false) as Himm by reflexivity.
  assert (dns Ex.api_m = Some (MultiResolver_as_Resolver Ex.chain_m)) as Hd
    by reflexivity.
  assert (Resolver_Resolve (MultiResolver_as_Resolver Ex.chain_m)
            (URI_Addr Ex.uri_name_failing) =
          (common_Hash_zero, Some (ErrCollaborator "down"))) as Hres
    by (vm_compute; reflexivity).
  split; [exact Himm|]. split; [exact Hd|]. split; [exact Hres|].
  destruct (Resolve_falls_back_to_hash_after_chain_error
              Ex.api_m Ex.uri_name_failing _ _ _ Himm Hd Hres) as [_ Hr].
  rewrite Hr. reflexivity.
Defined.

(** ** [Api.Get] on resource pointers *)

Section api_get.
Context `{Storage, Codecs, Manifest}.
Implicit Types (self : Api) (entry : ManifestEntry).

(** [Get] on an entry that is a resource pointer is decided by the
    resource branch. *)
Lemma Api_Get_resource_branch self manifestKey path entry rsrc data :
  resource_entry self manifestKey path entry rsrc data ->
  Api_Get self manifestKey path =
    match Get_resource self path entry with
    | inl ret => ret
    | inr entry' => Get_content self entry'
    end.
Proof.
  intros (trie & rh & k & Hload & Hentry & Hct & _).
  unfold Api_Get. rewrite Hload, Hentry. by rewrite decide_True.
Qed.

(** C2, as the code has it: for a resource pointer whose update is not
    multihash-flagged, [Get] returns no reader, the content type of
    the entry (which is the resource marker), status 200, no content
    key, and the typed error [ErrResourceReturn] carrying the entry's
    hash field (the resource name). *)
Theorem Get_raw_resource_returns_typed_error
    self manifestKey path entry rsrc data :
  resource_entry self manifestKey path entry rsrc data ->
  resource_Multihash rsrc = false ->
  Api_Get self manifestKey path =
    (None, ResourceContentType, http_StatusOK, None,
     Some (ErrResourceReturn (Entry_Hash entry))).
Proof.
  intros Hre Hraw. rewrite (Api_Get_resource_branch _ _ _ _ _ _ Hre).
  destruct Hre as (trie & rh & k & _ & _ & Hct & Hlook & Hcont).
  unfold Get_resource. rewrite Hlook, Hcont, Hraw. by rewrite Hct.
Qed.

(** C3, what the code returns: for a resource pointer whose update is
    multihash-flagged and decodes to a record of another algorithm
    than KECCAK-256, [Get] returns status 422, no reader and no
    content key, with a nil error. *)
Theorem Get_unsupported_digest_returns_nil_error
    self manifestKey path entry rsrc data decoded :
  resource_entry self manifestKey path entry rsrc data ->
  resource_Multihash rsrc = true ->
  multihash_Decode data = Ok decoded ->
  Multihash_Code decoded <> multihash_KECCAK_256 ->
  Api_Get self manifestKey path =
    (None, "", http_StatusUnprocessableEntity, None, None).
Proof.
  intros Hre Hmh Hdec Hcode. rewrite (Api_Get_resource_branch _ _ _ _ _ _ Hre).
  destruct Hre as (trie & rh & k & _ & _ & Hct & Hlook & Hcont).
  unfold Get_resource. rewrite Hlook, Hcont, Hmh, Hdec.
  by rewrite decide_True.
Qed.


End api_get.

(** The in-memory store hands out what it holds. *)
Lemma Mem_reader_holds (d : Mem.blocks) (k : storage_Key) (bs : list byte) :
  Mem.block_lookup d k = Some bs ->
  reader_holds (fst (DPA_Retrieve d k)) bs.
Proof.
  intros Hk n. simpl. rewrite Hk. simpl.
  unfold bytes_Reader_Read, bytes_NewReader. simpl.
  destruct bs as [|b bs]; simpl; [by rewrite take_nil|done].
Qed.

(** C2, as stated, fails: on a resource pointer whose update is raw,
    the outcome of [Get] arrives as a non-nil error value, and the
    content type returned is the marker of the entry. *)
Lemma Get_raw_resource_is_reported_as_error :
  resource_entry Ex.api_res [x0a] "" (Ex.resource_pointer "raw.res")
    false [x01; x02] /\
  resource_Multihash (false : resource_t) = false /\
  snd (Api_Get Ex.api_res [x0a] "") <> None /\
  snd (fst (fst (fst (Api_Get Ex.api_res [x0a] ""))))
    = "application/bzz-resource".
Proof.
  split; [|split; [|split]].
  - eexists _, _, _. repeat split; reflexivity.
  - reflexivity.
  - vm_compute. discriminate.
  - vm_compute. reflexivity.
Qed.

Lemma Get_raw_resource_returns_typed_error_witness :
  resource_entry Ex.api_res [x0a] "" (Ex.resource_pointer "raw.res")
    false [x01; x02] /\
  resource_Multihash (false : resource_t) = false /\
  Api_Get Ex.api_res [x0a] "" =
    (None, "application/bzz-resource", 200, None,
     Some (ErrResourceReturn "raw.res")).
Proof.
  assert (resource_entry Ex.api_res [x0a] "" (Ex.resource_pointer "raw.res")
            false [x01; x02]) as Hre.
  { eexists _, _, _. repeat split; reflexivity. }
  split; [exact Hre|]. split; [reflexivity|].
  exact (Get_raw_resource_returns_typed_error
           Ex.api_res [x0a] "" _ false [x01; x02] Hre eq_refl).
Defined.

(** C3 at a concrete input: the update [sha.res] is a digest record of
    algorithm 18; [Get] answers 422 with a nil error. *)
Lemma Get_unsupported_digest_returns_nil_error_witness :
  resource_entry Ex.api_res [x0b] "" (Ex.resource_pointer "sha.res")
    true [x12; x01; xaa] /\
  resource_Multihash (true : resource_t) = true /\
  multihash_Decode [x12; x01; xaa] = Ok Ex.sha_record /\
  Multihash_Code Ex.sha_record <> multihash_KECCAK_256 /\
  Api_Get Ex.api_res [x0b] "" = (None, "", 422, None, None).
Proof.
  assert (resource_entry Ex.api_res [x0b] "" (Ex.resource_pointer "sha.res")
            true [x12; x01; xaa]) as Hre.
  { eexists _, _, _. repeat split; reflexivity. }
  assert (multihash_Decode [x12; x01; xaa] = Ok Ex.sha_record) as Hdec
    by reflexivity.
  assert (Multihash_Code Ex.sha_record <> multihash_KECCAK_256) as Hcode
    by (vm_compute; discriminate).
  split; [exact Hre|]. split; [reflexivity|]. split; [exact Hdec|].
  split; [exact Hcode|].
  exact (Get_unsupported_digest_returns_nil_error
           Ex.api_res [x0b] "" _ true [x12; x01; xaa] _ Hre eq_refl Hdec Hcode).
Defined.



(** ** File edits: the combined buffer of [AppendFile] *)

Lemma wrap64_small z : 0 <= z < 2 ^ 63 -> wrap64 z = z.
Proof. intros Hz. unfold wrap64. rewrite Z.mod_small; lia. Qed.

Section append_buffer.
Context `{Storage}.

(** A call with [min <= 0] reads nothing and leaves the buffer as it
    is, whatever the reader. *)
Lemma io_ReadAtLeast_min_0 {R} `{io_Reader R} fuel (r : R) buf :
  io_ReadAtLeast fuel r buf 0 = Done (r, buf, 0, None).
Proof.
  unfold io_ReadAtLeast.
  replace (Z.of_nat (length buf) <? 0) with false by lia.
  by destruct fuel.
Qed.

(** Reading at least the whole of a [bytes.Reader] that fits in the
    buffer puts its data at the start of the buffer. *)
Lemma io_ReadAtLeast_bytes_fits fuel content buf :
  (length content <= length buf)%nat ->
  exists r n err,
    io_ReadAtLeast (S fuel) (bytes_NewReader content) buf
      (Z.of_nat (length content))
    = Done (r, content ++ drop (length content) buf, n, err).
Proof.
  intros Hfit. unfold io_ReadAtLeast.
  replace (Z.of_nat (length buf) <? Z.of_nat (length content)) with false
    by lia.
  destruct content as [|b content].
  - simpl. rewrite drop_0. by eexists _, _, _.
  - cbn [ReadAtLeast_loop].
    replace (0 <? Z.of_nat (length (b :: content))) with true
      by (simpl length; lia).
    rewrite bool_decide_eq_true_2 by done. cbn [andb].
    cbn [io_Read bytes_Reader_io]. unfold bytes_Reader_Read, bytes_NewReader.
    cbn [br_s br_i]. replace (length (b :: content) <=? 0)%nat with false
      by (simpl length; symmetry; apply Nat.leb_gt; lia).
    rewrite drop_0, Nat.sub_0_r.
    rewrite (take_ge (b :: content)) by done.
    rewrite (take_ge (b :: content)) by done.
    change (Z.to_nat 0) with 0%nat. rewrite take_0. cbn [app Nat.add].
    destruct fuel; cbn [ReadAtLeast_loop];
      replace (0 + Z.of_nat (length (b :: content))
                 <? Z.of_nat (length (b :: content))) with false by lia;
      cbn [andb]; by eexists _, _, _.
Qed.

(** C10: after the first [if], [buffSize < existingSize] is false for
    all arguments, so whenever the buffer is built the reads made are
    the first read of the old content and the read of the new content:
    the guarded read of the old content's tail is never made. *)
Theorem AppendFile_tail_read_never_runs
    fuel (self : Api) existingSize content oldKey offset addSize :
  (AppendFile_buffSize offset addSize existingSize <? existingSize) = false /\
  match AppendFile_buf fuel self existingSize content oldKey offset addSize with
  | Done (_, calls) => calls = [ReadOld offset; ReadNew addSize]
  | Panic _ | OutOfFuel => True
  end.
Proof.
  assert ((AppendFile_buffSize offset addSize existingSize <? existingSize)
          = false) as Hguard.
  { unfold AppendFile_buffSize.
    destruct (wrap64 (offset + addSize) <? existingSize) eqn:E; lia. }
  split; [exact Hguard|]. unfold AppendFile_buf.
  destruct (make_bytes _) as [buf| |]; cbn [mbind outcome_bind]; [|done..].
  destruct (DPA_Retrieve (dpa self) oldKey) as [oldReader enc].
  destruct (io_ReadAtLeast fuel oldReader buf offset)
    as [[[[oldReader' buf1] n1] e1]| |]; cbn [mbind outcome_bind]; [|done..].
  destruct (bytes_slice_from buf1 offset) as [sub| |];
    cbn [mbind outcome_bind]; [|done..].
  destruct (io_ReadAtLeast fuel (bytes_NewReader content) sub addSize)
    as [[[[newReader' sub1] n2] e2]| |]; cbn [mbind outcome_bind]; [|done..].
  by rewrite Hguard.
Qed.

(** C4, what the code builds: with [offset = 0], [addSize] the length
    of the new content and a larger declared size [N] of the old
    content, the buffer is the new content followed by zero bytes up
    to length [N]. The old content is not read at all. *)
Theorem AppendFile_offset_0_pads_with_zeros
    fuel (self : Api) N content oldKey :
  Z.of_nat (length content) < N -> N < 2 ^ 63 ->
  AppendFile_buf (S fuel) self N content oldKey 0 (Z.of_nat (length content))
  = Done (content ++ replicate (Z.to_nat N - length content) x00,
          [ReadOld 0; ReadNew (Z.of_nat (length content))]).
Proof.
  intros Hlt Hmax. unfold AppendFile_buf.
  assert (AppendFile_buffSize 0 (Z.of_nat (length content)) N = N) as ->.
  { unfold AppendFile_buffSize. rewrite wrap64_small by lia.
    replace (0 + Z.of_nat (length content) <? N) with true by lia. done. }
  unfold make_bytes. replace (N <? 0) with false by lia.
  cbn [mbind outcome_bind].
  destruct (DPA_Retrieve (dpa self) oldKey) as [oldReader enc].
  rewrite io_ReadAtLeast_min_0. cbn [mbind outcome_bind].
  unfold bytes_slice_from. rewrite length_replicate.
  replace ((0 <=? 0) && (0 <=? Z.of_nat (Z.to_nat N))) with true by lia.
  cbn [mbind outcome_bind]. change (Z.to_nat 0) with 0%nat. rewrite drop_0.
  destruct (io_ReadAtLeast_bytes_fits fuel content (replicate (Z.to_nat N) x00))
    as (r & n & err & ->); [rewrite length_replicate; lia|].
  cbn [mbind outcome_bind]. rewrite Z.ltb_irrefl. rewrite take_0.
  cbn [app mret outcome_ret]. by rewrite drop_replicate.
Qed.
End append_buffer.

(** C4 at a concrete input: old content [07 08] of declared size 2, new
    content [01] at offset 0. The buffer is [01 00]; the new content
    followed by the old bytes from 1 to 2 would be [01 08]. *)
Lemma AppendFile_offset_0_pads_with_zeros_witness :
  Z.of_nat (length [x01]) < 2 /\ 2 < 2 ^ 63 /\
  reader_holds (fst (DPA_Retrieve (dpa Ex.api_old) [x0c])) Ex.old_content /\
  AppendFile_buf 1 Ex.api_old 2 [x01] [x0c] 0 1
    = Done ([x01; x00], [ReadOld 0; ReadNew 1]) /\
  [x01; x00] <> [x01] ++ drop 1 (take 2 Ex.old_content).
Proof.
  assert (Z.of_nat (length [x01]) < 2) as Hlt by (simpl; lia).
  assert (2 < 2 ^ 63) as Hmax by lia.
  split; [exact Hlt|]. split; [exact Hmax|].
  split; [apply Mem_reader_holds; reflexivity|].
  split; [|vm_compute; discriminate].
  exact (AppendFile_offset_0_pads_with_zeros 0 Ex.api_old 2 [x01] [x0c] Hlt Hmax).
Defined.

(** ** File edits: trimming the directory path *)

Lemma substring_0_length (s : string) :
  String.substring 0 (String.length s) s = s.
Proof. induction s as [|c s IH]; simpl; [done|]. by rewrite IH. Qed.

Lemma substring_0_0 (s : string) : String.substring 0 0 s = "".
Proof. by destruct s. Qed.

(** The trim panics on the empty path. *)
Lemma trim_root_dir_empty : trim_root_dir "" = Panic SliceBoundsOutOfRange.
Proof. reflexivity. Qed.

(** On a non-empty path the trim drops one leading slash. *)
Lemma trim_root_dir_nonempty c rest :
  trim_root_dir (String c rest) =
    Done (if Ascii.eqb c "/" then rest else String c rest).
Proof.
  unfold trim_root_dir, str_slice_to, str_slice_from, str_slice.
  cbn [String.length].
  replace ((0 <=? 0) && (0 <=? 1) && (1 <=? Z.of_nat (S (String.length rest))))
    with true by lia.
  cbn [mbind outcome_bind]. change (Z.to_nat (1 - 0)) with 1%nat.
  change (Z.to_nat 0) with 0%nat. cbn [String.substring].
  rewrite substring_0_0.
  destruct (Ascii.eqb_spec c "/") as [->|Hc].
  - rewrite decide_True by done.
    replace ((0 <=? 1) && (1 <=? Z.of_nat (S (String.length rest)))
             && (Z.of_nat (S (String.length rest))
                 <=? Z.of_nat (S (String.length rest)))) with true by lia.
    change (Z.to_nat 1) with 1%nat.
    replace (Z.to_nat (Z.of_nat (S (String.length rest)) - 1))
      with (String.length rest) by lia.
    cbn [String.substring]. by rewrite substring_0_length.
  - rewrite decide_False; [done|]. intros [= ->]. by apply Hc.
Qed.

Section path_trim.
Context `{Storage, UriOps, Manifest, GoLib}.
Implicit Types (self : Api).

(** C9: with the empty string as directory path, [path[:1]] is out of
    range. [AddFile], [RemoveFile] and [AppendFile] panic there as
    soon as [Parse] and [Resolve] have succeeded (for [AppendFile],
    once the buffer is built); none of them returns an error for the
    empty path itself. With a non-empty path the trim does not
    panic. *)
Theorem empty_path_trim_is_out_of_range :
  trim_root_dir "" = Panic SliceBoundsOutOfRange /\
  (forall c rest,
     trim_root_dir (String c rest) =
       Done (if Ascii.eqb c "/" then rest else String c rest)) /\
  (forall self mhash fname content nameresolver,
     Api_AddFile self mhash "" fname content nameresolver =
       before_trim self mhash (fun e => (None, "", Some e))
         (Panic SliceBoundsOutOfRange)) /\
  (forall self mhash fname nameresolver,
     Api_RemoveFile self mhash "" fname nameresolver =
       before_trim self mhash (fun e => ("", Some e))
         (Panic SliceBoundsOutOfRange)) /\
  (forall fuel self mhash fname existingSize content oldKey offset addSize
          nameresolver,
     Api_AppendFile fuel self mhash "" fname existingSize content oldKey
       offset addSize nameresolver =
       _ ← AppendFile_buf fuel self existingSize content oldKey offset addSize;
       before_trim self mhash (fun e => (None, "", Some e))
         (Panic SliceBoundsOutOfRange)).
Proof.
  split; [exact trim_root_dir_empty|].
  split; [exact trim_root_dir_nonempty|].
  split; [|split].
  - intros. unfold Api_AddFile, before_trim.
    destruct (Parse _) as [uri|e]; [|done].
    by destruct (Api_Resolve self uri) as [mkey [e|]].
  - intros. unfold Api_RemoveFile, before_trim.
    destruct (Parse _) as [uri|e]; [|done].
    by destruct (Api_Resolve self uri) as [mkey [e|]].
  - intros. unfold Api_AppendFile, before_trim.
    destruct (AppendFile_buf _ _ _ _ _ _ _) as [[buf calls]| |];
      cbn [mbind outcome_bind]; [|done..].
    destruct (Parse _) as [uri|e]; [|done].
    by destruct (Api_Resolve self uri) as [mkey [e|]].
Qed.
End path_trim.

(** C9 at a concrete input: a root given as a hash resolves without a
    resolver, and [AddFile] with the empty directory path then panics. *)
Lemma empty_path_trim_is_out_of_range_witness :
  Api_AddFile Ex.api_empty Ex.hash64 "" "f.txt" [x01] false
    = Panic SliceBoundsOutOfRange /\
  Api_RemoveFile Ex.api_empty Ex.hash64 "" "f.txt" false
    = Panic SliceBoundsOutOfRange /\
  Api_AppendFile 1 Ex.api_old Ex.hash64 "" "f.txt" 2 [x01] [x0c] 0 1 false
    = Panic SliceBoundsOutOfRange.
Proof.
  destruct (@empty_path_trim_is_out_of_range Mem.uri Mem.storage Mem.manifest
              Mem.golib) as (_ & _ & Hadd & Hrm & Happ).
  rewrite Hadd, Hrm, Happ. repeat split; vm_compute; reflexivity.
Defined.

(** * Further properties *)

(** ** Registration and chain selection *)

Section registration.
Implicit Types (m : MultiResolver) (opts : list MultiResolverOption).

Lemma backends_for_app tld opts1 opts2 :
  backends_for tld (opts1 ++ opts2) =
    backends_for tld opts1 ++ backends_for tld opts2.
Proof.
  induction opts1 as [|[r t|f] opts1 IH]; simpl; [done| |done].
  case_decide; [|done]. by rewrite IH.
Qed.

(** Registering on top of [m]: each chain grows by the backends the
    options name for it, in option order, and a chain exists afterwards
    exactly when it existed before or an option names its TLD. *)
Lemma fold_options_lookup opts m tld :
  default [] (resolvers (fold_left (fun m o => apply_option o m) opts m) !! tld)
    = default [] (resolvers m !! tld) ++ backends_for tld opts /\
  (resolvers (fold_left (fun m o => apply_option o m) opts m) !! tld = None <->
   resolvers m !! tld = None /\ backends_for tld opts = []).
Proof.
  revert m. induction opts as [|o opts IH]; intros m; simpl.
  - rewrite app_nil_r. split; [done|]. split; [by intros ?|by intros [? _]].
  - destruct (IH (apply_option o m)) as [IH1 IH2]. rewrite IH1, IH2. clear IH.
    destruct o as [r t|f]; simpl; [|done].
    rewrite lookup_insert. case_decide as Ht.
    + subst t. simpl. rewrite <- app_assoc. simpl. split; [done|].
      split; [by intros [? _]|by intros [_ ?]].
    + done.
Qed.

(** X1: [NewMultiResolver] registers, for every TLD, exactly the
    backends the options give for it, in the order of the options; a
    TLD no option names has no chain. *)
Theorem NewMultiResolver_registers_in_order ens opts tld :
  default [] (resolvers (NewMultiResolver ens opts) !! tld)
    = backends_for tld opts /\
  (resolvers (NewMultiResolver ens opts) !! tld = None <->
   backends_for tld opts = []).
Proof.
  unfold NewMultiResolver.
  destruct (fold_options_lookup opts {| resolvers := ∅; nameHash := ens |} tld)
    as [H1 H2].
  rewrite H1, H2. simpl. rewrite lookup_empty. simpl.
  split; [done|]. split; [by intros [_ ?]|by intros ?].
Qed.
End registration.

Section tld_selection.
Implicit Types (m : MultiResolver) (a t s : string).

Lemma get_app_r a s i : String.get (String.length a + i) (a +:+ s) = String.get i s.
Proof. induction a as [|c a IH]; simpl; [done|exact IH]. Qed.

Lemma substring_app_r a s n :
  String.substring (String.length a) n (a +:+ s) = String.substring 0 n s.
Proof.
  induction a as [|c a IH]; simpl; [done|exact IH].
Qed.

Lemma string_length_app a s :
  String.length (a +:+ s) = (String.length a + String.length s)%nat.
Proof. induction a as [|c a IH]; simpl; [done|by rewrite IH]. Qed.

Lemma plain_token_get t i c :
  plain_token t = true -> String.get i t = Some c ->
  Ascii.eqb c "/" = false /\ Ascii.eqb c "." = false.
Proof.
  revert i. induction t as [|c0 t IH]; intros i Ht Hget; [done|].
  simpl in Ht. apply andb_prop in Ht as [Hc Ht]. apply andb_prop in Hc as [Hd Hs].
  destruct i as [|i]; simpl in Hget.
  - injection Hget as <-. split; by apply negb_true_iff.
  - by apply (IH i).
Qed.

Lemma no_dot_get s i c :
  no_dot s = true -> String.get i s = Some c -> Ascii.eqb c "." = false.
Proof.
  revert i. induction s as [|c0 s IH]; intros i Hs Hget; [done|].
  simpl in Hs. apply andb_prop in Hs as [Hd Hs].
  destruct i as [|i]; simpl in Hget.
  - injection Hget as <-. by apply negb_true_iff.
  - by apply (IH i).
Qed.

Lemma get_Some_lt s i : (i < String.length s)%nat -> is_Some (String.get i s).
Proof.
  revert i. induction s as [|c s IH]; intros i Hi; simpl in *; [lia|].
  destruct i as [|i]; [by eexists|]. apply IH. lia.
Qed.

(** [path.Ext] of a name that ends in a dot followed by a token free
    of dots and slashes is the dot and the token. *)
Lemma path_Ext_dotted a t :
  plain_token t = true -> path_Ext (a +:+ "." +:+ t) = "." +:+ t.
Proof.
  intros Ht. unfold path_Ext.
  assert (forall k, (k <= String.length t)%nat ->
            path_Ext_from (a +:+ "." +:+ t) (String.length a + 1 + k)
            = "." +:+ t) as Hk.
  { induction k as [|k IH]; intros Hle.
    - replace (String.length a + 1 + 0)%nat with (S (String.length a)) by lia.
      cbn [path_Ext_from].
      replace (String.length a) with (String.length a + 0)%nat at 1 by lia.
      rewrite get_app_r. cbn [String.get append]. cbn [Ascii.eqb].
      replace (Ascii.eqb "." "/") with false by reflexivity.
      replace (Ascii.eqb "." ".") with true by reflexivity.
      rewrite substring_app_r, string_length_app.
      replace (String.length a + String.length ("." +:+ t) - String.length a)%nat
        with (String.length ("." +:+ t)) by lia.
      apply substring_0_length.
    - replace (String.length a + 1 + S k)%nat
        with (S (String.length a + S k)) by lia.
      cbn [path_Ext_from]. rewrite get_app_r.
      change (String.get (S k) ("." +:+ t)) with (String.get k t).
      destruct (get_Some_lt t k) as [c Hc]; [lia|]. rewrite Hc.
      destruct (plain_token_get t k c Ht Hc) as [-> ->].
      replace (String.length a + S k)%nat with (String.length a + 1 + k)%nat
        by lia.
      apply IH. lia. }
  rewrite string_length_app.
  change (String.length ("." +:+ t)) with (S (String.length t)).
  replace (String.length a + S (String.length t))%nat
    with (String.length a + 1 + String.length t)%nat by lia.
  by apply Hk.
Qed.

(** [path.Ext] of a name without a dot is empty. *)
Lemma path_Ext_no_dot s : no_dot s = true -> path_Ext s = "".
Proof.
  intros Hs. unfold path_Ext. generalize (String.length s) at 1.
  induction n as [|n IH]; [done|]. cbn [path_Ext_from].
  destruct (String.get n s) as [c|] eqn:Hc; [|done].
  rewrite (no_dot_get s n c Hs Hc). by destruct (Ascii.eqb c "/").
Qed.

(** X2: a name [a.t] whose last part [t] has no dot and no slash is
    looked up under the TLD token [t]: when a chain is registered for
    [t], that chain is selected without error, whatever [a] is. *)
Theorem dotted_name_selects_chain_of_last_part m a t rs :
  plain_token t = true ->
  resolvers m !! t = Some rs ->
  tld_of (a +:+ "." +:+ t) = t /\
  getResolveValidator m (a +:+ "." +:+ t) = (rs, None).
Proof.
  intros Ht Hrs. unfold tld_of, getResolveValidator.
  rewrite (path_Ext_dotted a t Ht).
  change ("." +:+ t) with (String "." t). cbv iota. by rewrite Hrs.
Qed.

(** X3: a name without any dot has the empty TLD token: it is resolved
    by the default chain when that has a backend, and fails with
    [NoResolverError] for the empty TLD otherwise, whatever other
    chains are registered. *)
Theorem undotted_name_uses_default_chain m s :
  no_dot s = true ->
  tld_of s = "" /\
  getResolveValidator m s =
    match default [] (resolvers m !! "") with
    | [] => ([], Some (NoResolverError ""))
    | r :: rs => (r :: rs, None)
    end.
Proof.
  intros Hs. unfold tld_of, getResolveValidator.
  rewrite (path_Ext_no_dot s Hs). split; [done|].
  by destruct (default [] (resolvers m !! "")).
Qed.
End tld_selection.

Lemma dotted_name_selects_chain_of_last_part_witness :
  plain_token "test" = true /\
  resolvers Ex.chain_m !! "test" = Some [Mem.failing "down"] /\
  getResolveValidator Ex.chain_m "x.test" = ([Mem.failing "down"], None).
Proof.
  assert (plain_token "test" = true) as Ht by reflexivity.
  assert (resolvers Ex.chain_m !! "test" = Some [Mem.failing "down"]) as Hrs
    by (vm_compute; reflexivity).
  split; [exact Ht|]. split; [exact Hrs|].
  exact (proj2 (dotted_name_selects_chain_of_last_part
                  Ex.chain_m "x" "test" _ Ht Hrs)).
Defined.

Lemma undotted_name_uses_default_chain_witness :
  no_dot "swarm" = true /\
  getResolveValidator Ex.chain_m "swarm" = ([Mem.answering [x01]], None) /\
  getResolveValidator Ex.chain_eth "swarm" = ([], Some (NoResolverError "")).
Proof.
  assert (no_dot "swarm" = true) as Hs by reflexivity.
  split; [exact Hs|]. split.
  - rewrite (proj2 (undotted_name_uses_default_chain Ex.chain_m "swarm" Hs)).
    vm_compute. reflexivity.
  - rewrite (proj2 (undotted_name_uses_default_chain Ex.chain_eth "swarm" Hs)).
    vm_compute. reflexivity.
Defined.

(** ** [Resolve], [ValidateOwner] and [HeaderByNumber] over a chain *)

Section chain_walks.
Implicit Types (m : MultiResolver) (rs pre post : list ResolveValidator).
Implicit Types (r : ResolveValidator) (name : string).

Lemma last_elem_of {A} (l : list A) (x : A) : last l = Some x -> x ∈ l.
Proof.
  induction l as [|a l IH]; [done|]. destruct l as [|b l].
  - intros [= ->]. apply list_elem_of_here.
  - rewrite last_cons_cons. intros Hl. by apply list_elem_of_further, IH.
Qed.

(** A walk that ends without error on a non-empty chain ends at a
    backend that succeeded with the hash returned. *)
Lemma Resolve_loop_nil_error rs addr h0 e0 h :
  rs <> [] -> snd (Resolve_loop rs addr h0 e0) = (h, None) ->
  exists r, r ∈ rs /\ rv_Resolve r addr = (h, None).
Proof.
  revert h0 e0. induction rs as [|r rs IH]; intros h0 e0 Hne Hres; [done|].
  simpl in Hres. destruct (rv_Resolve r addr) as [h' [e|]] eqn:Er.
  - destruct rs as [|r1 rs1]; [simpl in Hres; congruence|].
    destruct (Resolve_loop (r1 :: rs1) addr h' (Some e)) as [called res] eqn:El.
    simpl in Hres. subst res.
    destruct (IH h' (Some e)) as (r' & Hin & Hr'); [done|by rewrite El|].
    exists r'. split; [by apply list_elem_of_further|done].
  - simpl in Hres. injection Hres as <-. exists r.
    split; [apply list_elem_of_here|done].
Qed.

(** X4: on a resolver built by [NewMultiResolver], [Resolve] returns a
    nil error only when a backend has succeeded: the hash returned is
    the answer of a backend registered for the name's TLD token or for
    the default chain. *)
Theorem Resolve_nil_error_comes_from_a_backend ens opts name h :
  MultiResolver_Resolve (NewMultiResolver ens opts) name = (h, None) ->
  exists tld r,
    (tld = tld_of name \/ tld = "") /\
    r ∈ backends_for tld opts /\
    rv_Resolve r name = (h, None).
Proof.
  set (m := NewMultiResolver ens opts). intros Hres.
  assert (chains_nonempty m) as Hm by apply NewMultiResolver_chains_nonempty.
  assert (forall tld rs, resolvers m !! tld = Some rs ->
            rs = backends_for tld opts) as Hreg.
  { intros tld rs Hrs.
    destruct (fold_options_lookup opts {| resolvers := ∅; nameHash := ens |} tld)
      as [H1 _]. fold (NewMultiResolver ens opts) in H1. fold m in H1.
    rewrite Hrs in H1. simpl in H1. by rewrite lookup_empty in H1. }
  unfold MultiResolver_Resolve, MultiResolver_Resolve_calls in Hres.
  destruct (resolvers m !! tld_of name) as [rs|] eqn:Htld.
  - rewrite (getResolveValidator_tld m name rs Hm Htld) in Hres.
    destruct (Resolve_loop_nil_error rs name _ _ h (Hm _ _ Htld) Hres)
      as (r & Hin & Hr).
    exists (tld_of name), r. rewrite <- (Hreg _ _ Htld). auto.
  - destruct (resolvers m !! "") as [rs|] eqn:Hd.
    + rewrite (getResolveValidator_default m name rs Hm Htld Hd) in Hres.
      destruct (Resolve_loop_nil_error rs name _ _ h (Hm _ _ Hd) Hres)
        as (r & Hin & Hr).
      exists "", r. rewrite <- (Hreg _ _ Hd). auto.
    + rewrite (getResolveValidator_none m name Htld Hd) in Hres.
      simpl in Hres. congruence.
Qed.

Lemma ValidateOwner_loop_first_ok pre r post node address err0 addr :
  Forall (owner_fails node) pre -> rv_Owner r node = (addr, None) ->
  ValidateOwner_loop (pre ++ r :: post) node address err0
    = (pre ++ [r], (bool_decide (addr = address), None)).
Proof.
  revert err0. induction pre as [|r0 pre IH]; intros err0 Hf Hr; simpl.
  - by rewrite Hr.
  - apply Forall_cons in Hf as [Hr0 Hf]. unfold owner_fails in Hr0.
    destruct (rv_Owner r0 node) as [a' [e|]]; simpl in Hr0; [|done].
    by rewrite (IH (Some e) Hf Hr).
Qed.

Lemma ValidateOwner_loop_all_fail rs r node address err0 :
  Forall (owner_fails node) rs -> last rs = Some r ->
  ValidateOwner_loop rs node address err0 = (rs, (false, snd (rv_Owner r node))).
Proof.
  revert err0. induction rs as [|r0 rs IH]; intros err0 Hf Hl; [done|].
  apply Forall_cons in Hf as [Hr0 Hf]. simpl. unfold owner_fails in Hr0.
  destruct (rv_Owner r0 node) as [a' [e|]] eqn:Er0; simpl in Hr0; [|done].
  destruct rs as [|r1 rs'].
  - simpl in *. injection Hl as <-. by rewrite Er0.
  - rewrite last_cons_cons in Hl. by rewrite (IH (Some e) Hf Hl).
Qed.

(** X5: [ValidateOwner] asks the backends of the selected chain for the
    owner of [nameHash(name)], in order. The first backend that answers
    decides: the result is whether its owner equals the given address,
    with a nil error, and no later backend is asked; the errors of the
    backends before it are dropped. If all fail, the result is [false]
    with the error of the last backend; if no chain is selected, it is
    [false] with the selection error and no backend is asked. *)
Theorem ValidateOwner_first_answer_decides m name address :
  (forall rs pre r post addr,
     getResolveValidator m name = (rs, None) ->
     rs = pre ++ r :: post ->
     Forall (owner_fails (nameHash m name)) pre ->
     rv_Owner r (nameHash m name) = (addr, None) ->
     MultiResolver_ValidateOwner_calls m name address
       = (pre ++ [r], (bool_decide (addr = address), None))) /\
  (forall rs r,
     getResolveValidator m name = (rs, None) ->
     Forall (owner_fails (nameHash m name)) rs -> last rs = Some r ->
     MultiResolver_ValidateOwner_calls m name address
       = (rs, (false, snd (rv_Owner r (nameHash m name)))) /\
     snd (rv_Owner r (nameHash m name)) <> None) /\
  (forall rs e,
     getResolveValidator m name = (rs, Some e) ->
     MultiResolver_ValidateOwner_calls m name address = ([], (false, Some e))).
Proof.
  unfold MultiResolver_ValidateOwner_calls. split; [|split].
  - intros rs pre r post addr -> -> Hf Hr.
    by apply ValidateOwner_loop_first_ok.
  - intros rs r -> Hf Hl. split; [by apply ValidateOwner_loop_all_fail|].
    apply last_elem_of in Hl. rewrite Forall_forall in Hf. by apply Hf.
  - by intros rs e ->.
Qed.

Lemma HeaderByNumber_loop_first_ok pre r post blockNr err0 header :
  Forall (header_fails blockNr) pre ->
  rv_HeaderByNumber r blockNr = (header, None) ->
  HeaderByNumber_loop (pre ++ r :: post) blockNr err0
    = (pre ++ [r], (header, None)).
Proof.
  revert err0. induction pre as [|r0 pre IH]; intros err0 Hf Hr; simpl.
  - by rewrite Hr.
  - apply Forall_cons in Hf as [Hr0 Hf]. unfold header_fails in Hr0.
    destruct (rv_HeaderByNumber r0 blockNr) as [h' [e|]]; simpl in Hr0; [|done].
    by rewrite (IH (Some e) Hf Hr).
Qed.

Lemma HeaderByNumber_loop_all_fail rs r blockNr err0 :
  Forall (header_fails blockNr) rs -> last rs = Some r ->
  HeaderByNumber_loop rs blockNr err0
    = (rs, (None, snd (rv_HeaderByNumber r blockNr))).
Proof.
  revert err0. induction rs as [|r0 rs IH]; intros err0 Hf Hl; [done|].
  apply Forall_cons in Hf as [Hr0 Hf]. simpl. unfold header_fails in Hr0.
  destruct (rv_HeaderByNumber r0 blockNr) as [h' [e|]] eqn:Er0;
    simpl in Hr0; [|done].
  destruct rs as [|r1 rs'].
  - simpl in *. injection Hl as <-. by rewrite Er0.
  - rewrite last_cons_cons in Hl. by rewrite (IH (Some e) Hf Hl).
Qed.

(** X6: [HeaderByNumber] returns the header of the first backend of the
    selected chain that delivers one, asking no backend after it. If
    all fail, it returns a nil header with the error of the last
    backend, whatever header values the failing backends handed back;
    if no chain is selected, a nil header and the selection error. *)
Theorem HeaderByNumber_first_header_wins m name blockNr :
  (forall rs pre r post header,
     getResolveValidator m name = (rs, None) ->
     rs = pre ++ r :: post ->
     Forall (header_fails blockNr) pre ->
     rv_HeaderByNumber r blockNr = (header, None) ->
     MultiResolver_HeaderByNumber_calls m name blockNr
       = (pre ++ [r], (header, None))) /\
  (forall rs r,
     getResolveValidator m name = (rs, None) ->
     Forall (header_fails blockNr) rs -> last rs = Some r ->
     MultiResolver_HeaderByNumber_calls m name blockNr
       = (rs, (None, snd (rv_HeaderByNumber r blockNr))) /\
     snd (rv_HeaderByNumber r blockNr) <> None) /\
  (forall rs e,
     getResolveValidator m name = (rs, Some e) ->
     MultiResolver_HeaderByNumber_calls m name blockNr = ([], (None, Some e))).
Proof.
  unfold MultiResolver_HeaderByNumber_calls. split; [|split].
  - intros rs pre r post header -> -> Hf Hr.
    by apply HeaderByNumber_loop_first_ok.
  - intros rs r -> Hf Hl. split; [by apply HeaderByNumber_loop_all_fail|].
    apply last_elem_of in Hl. rewrite Forall_forall in Hf. by apply Hf.
  - by intros rs e ->.
Qed.
End chain_walks.

Lemma Resolve_nil_error_comes_from_a_backend_witness :
  MultiResolver_Resolve Ex.chain_eth "swarm.eth" = ([x02], None) /\
  exists tld r,
    (tld = tld_of "swarm.eth" \/ tld = "") /\
    r ∈ backends_for tld
          [MultiResolverOptionWithResolver (Mem.failing "first") "eth";
           MultiResolverOptionWithResolver (Mem.answering [x02]) "eth"] /\
    rv_Resolve r "swarm.eth" = ([x02], None).
Proof.
  assert (MultiResolver_Resolve Ex.chain_eth "swarm.eth" = ([x02], None)) as Hres
    by (vm_compute; reflexivity).
  split; [exact Hres|].
  exact (Resolve_nil_error_comes_from_a_backend _ _ _ _ Hres).
Defined.

(** X5 at a concrete chain: the first backend fails, the second names
    owner [0a], the third owner [0b]. Asked about [0b], the answer is
    [false]: the third backend is not consulted. *)
Lemma ValidateOwner_first_answer_decides_witness :
  MultiResolver_ValidateOwner_calls Ex2.chain_owner "x.eth" Ex2.owner_b
    = ([Mem.failing "first"; Ex2.owned_by Ex2.owner_a], (false, None)).
Proof.
  destruct (ValidateOwner_first_answer_decides Ex2.chain_owner "x.eth"
              Ex2.owner_b) as (Hfirst & _ & _).
  apply (Hfirst [Mem.failing "first"; Ex2.owned_by Ex2.owner_a;
                 Ex2.owned_by Ex2.owner_b]
           [Mem.failing "first"] (Ex2.owned_by Ex2.owner_a)
           [Ex2.owned_by Ex2.owner_b] Ex2.owner_a).
  - vm_compute. reflexivity.
  - reflexivity.
  - repeat constructor. vm_compute. discriminate.
  - reflexivity.
Defined.

Lemma HeaderByNumber_first_header_wins_witness :
  MultiResolver_HeaderByNumber_calls Ex2.chain_owner "x.eth" 7
    = ([Mem.failing "first"; Ex2.owned_by Ex2.owner_a], (Some 7, None)).
Proof.
  destruct (HeaderByNumber_first_header_wins Ex2.chain_owner "x.eth" 7)
    as (Hfirst & _ & _).
  apply (Hfirst [Mem.failing "first"; Ex2.owned_by Ex2.owner_a;
                 Ex2.owned_by Ex2.owner_b]
           [Mem.failing "first"] (Ex2.owned_by Ex2.owner_a)
           [Ex2.owned_by Ex2.owner_b] (Some 7)).
  - vm_compute. reflexivity.
  - reflexivity.
  - repeat constructor. vm_compute. discriminate.
  - reflexivity.
Defined.

(** ** [Api.Resolve] and [Api.Put]: shape of the results *)

Section api_results.
Context `{Storage, UriOps}.
Implicit Types (self : Api) (uri : URI).

(** X7: [Api.Resolve] returns either a key with a nil error or a nil key
    with an error, never both and never neither; and it calls the
    resolver at most once, with the address of the URI. *)
Theorem Resolve_returns_key_or_error self uri :
  (fst (Api_Resolve self uri) = None <-> snd (Api_Resolve self uri) <> None) /\
  (fst (Api_Resolve_calls self uri) = [] \/
   fst (Api_Resolve_calls self uri) = [URI_Addr uri]).
Proof.
  unfold Api_Resolve, Api_Resolve_calls.
  destruct (URI_Immutable uri), (dns self) as [d|];
    try destruct (Resolver_Resolve d (URI_Addr uri)) as [h [e|]];
    destruct (URI_Key uri); simpl; naive_solver.
Qed.

(** X8: for a URI that is not immutable, an answer of the resolver is
    what [Resolve] returns, also when the address is itself a
    well-formed hash: the address is tried as a hash only after the
    resolver has failed. *)
Theorem Resolve_resolver_answer_precedes_hash self uri d h :
  URI_Immutable uri = false ->
  dns self = Some d ->
  Resolver_Resolve d (URI_Addr uri) = (h, None) ->
  Api_Resolve self uri = (Some h, None).
Proof.
  intros Himm Hd Hres. unfold Api_Resolve, Api_Resolve_calls.
  by rewrite Himm, Hd, Hres.
Qed.

(** X9: [Api.Put] returns either the root key with a nil error or a nil
    key with an error; it leaves the resource handler and the resolver
    as they were; and when the write of the content fails, the result is
    that error and the store is as that one write left it: the manifest
    is not written. *)
Theorem Put_returns_key_or_error self content contentType toEncrypt :
  (fst (fst (Api_Put self content contentType toEncrypt)) = None <->
   snd (fst (Api_Put self content contentType toEncrypt)) <> None) /\
  resource (snd (Api_Put self content contentType toEncrypt)) = resource self /\
  dns (snd (Api_Put self content contentType toEncrypt)) = dns self /\
  (forall k e d1,
     DPA_Store (dpa self) (list_byte_of_string content)
       (Z.of_nat (String.length content)) toEncrypt = ((k, Some e), d1) ->
     Api_Put self content contentType toEncrypt =
       ((None, Some e),
        {| resource := resource self; dpa := d1; dns := dns self |})).
Proof.
  unfold Api_Put.
  destruct (DPA_Store (dpa self) _ _ toEncrypt) as [[k [e|]] d1]; simpl.
  - repeat split; try done. intros k' e' d1' [= -> -> ->]. done.
  - destruct (DPA_Store d1 _ _ toEncrypt) as [[mk [e|]] d2]; simpl;
      repeat split; try done.
Qed.
End api_results.

Lemma Resolve_resolver_answer_precedes_hash_witness :
  URI_Immutable Ex2.uri_hash_name = false /\
  is_Some (URI_Key Ex2.uri_hash_name) /\
  Api_Resolve Ex2.api_answering Ex2.uri_hash_name = (Some [x05], None).
Proof.
  split; [reflexivity|]. split; [vm_compute; eauto|].
  exact (Resolve_resolver_answer_precedes_hash Ex2.api_answering
           Ex2.uri_hash_name _ [x05] eq_refl eq_refl eq_refl).
Defined.

(** X9 on a store whose writes fail: one write is attempted, not two. *)
Lemma Put_returns_key_or_error_witness :
  @Api_Put Ex2.storage_full Ex2.api_full "hi" "text/plain" false
    = ((None, Some (ErrCollaborator "store full")),
       @Build_Api Ex2.storage_full tt 1%nat None).
Proof.
  destruct (@Put_returns_key_or_error Ex2.storage_full Ex2.api_full
              "hi" "text/plain" false) as (_ & _ & _ & Hfail).
  exact (Hfail [] (ErrCollaborator "store full") 1%nat eq_refl).
Defined.

(** ** [Api.Get]: every way out *)

Section api_get_more.
Context `{Storage, Codecs, Manifest}.
Implicit Types (self : Api) (entry : ManifestEntry).

(** A [return] from the resource branch carries no reader and no
    content key. *)
Lemma Get_resource_return self path entry ret :
  Get_resource self path entry = inl ret ->
  fst (fst (fst (fst ret))) = None /\ snd (fst ret) = None.
Proof.
  unfold Get_resource.
  destruct (LookupLatestByName _ _) as [[rsrc|e] rh]; [|by intros [= <-]].
  destruct (GetContent rh _) as [[k data]|e]; [|by intros [= <-]].
  destruct (resource_Multihash rsrc); [|by intros [= <-]].
  destruct (multihash_Decode data) as [d|e]; [|by intros [= <-]].
  case_decide; [by intros [= <-]|].
  destruct (loadManifest _ _) as [trie|e]; [|by intros [= <-]].
  destruct (fst (getEntry trie path)); [done|by intros [= <-]].
Qed.

Lemma Get_content_shape self entry :
  snd (Get_content self entry) = None /\
  snd (fst (Get_content self entry)) <> None /\
  (fst (fst (fst (fst (Get_content self entry)))) <> None ->
   snd (fst (fst (Get_content self entry))) <> http_StatusMultipleChoices).
Proof.
  unfold Get_content. case_decide as Hst.
  - simpl. by repeat split.
  - destruct (DPA_Retrieve _ _) as [reader enc]. simpl. by repeat split.
Qed.

(** X10: [Get] never returns a reader together with an error. When it
    returns a reader, the error is nil, the content key is non-nil and
    the status is not 300; when it returns an error, both the reader
    and the content key are nil. *)
Theorem Get_reader_excludes_error self manifestKey path :
  let '(reader, mimeType, status, contentKey, err) :=
    Api_Get self manifestKey path in
  (reader <> None ->
   err = None /\ contentKey <> None /\ status <> http_StatusMultipleChoices) /\
  (err <> None -> reader = None /\ contentKey = None).
Proof.
  assert (forall entry,
            let '(reader, mimeType, status, contentKey, err) :=
              Get_content self entry in
            (reader <> None ->
             err = None /\ contentKey <> None /\
             status <> http_StatusMultipleChoices) /\
            (err <> None -> reader = None /\ contentKey = None)) as Hcontent.
  { intros entry. pose proof (Get_content_shape self entry) as (He & Hk & Hs).
    destruct (Get_content self entry) as [[[[reader mime] status] ckey] err].
    simpl in *. subst err. split; [by auto|done]. }
  unfold Api_Get. destruct (loadManifest _ _) as [trie|e]; [|by split].
  destruct (fst (getEntry trie path)) as [entry|]; [|by split].
  case_decide; [|apply Hcontent].
  destruct (Get_resource self path entry) as [ret|entry'] eqn:Hres;
    [|apply Hcontent].
  apply Get_resource_return in Hres as [Hr Hk].
  destruct ret as [[[[reader mime] status] ckey] err]. simpl in *.
  subst reader ckey. by split.
Qed.

(** X11: a manifest that cannot be loaded, and a path without an entry,
    are both answered with status 404, no reader, no content key and an
    error: the error of the load, or "manifest entry for '%s' not
    found" with the path. *)
Theorem Get_missing_is_404 self manifestKey path :
  (forall e,
     loadManifest (dpa self) manifestKey = Err e ->
     Api_Get self manifestKey path =
       (None, "", http_StatusNotFound, None, Some e)) /\
  (forall trie,
     loadManifest (dpa self) manifestKey = Ok trie ->
     fst (getEntry trie path) = None ->
     Api_Get self manifestKey path =
       (None, "", http_StatusNotFound, None,
        Some (Errorf "manifest entry for '%s' not found" [path]))).
Proof.
  unfold Api_Get. split.
  - by intros e ->.
  - by intros trie -> ->.
Qed.

(** X12: an entry that is not a resource pointer and carries status 300
    is returned as ambiguous: content type, status 300 and the decoded
    hash of the entry, with a nil error and no reader. The content
    store is not asked for a reader. *)
Theorem Get_ambiguous_entry_has_no_reader self manifestKey path trie entry :
  loadManifest (dpa self) manifestKey = Ok trie ->
  fst (getEntry trie path) = Some entry ->
  Entry_ContentType entry <> ResourceContentType ->
  Entry_Status entry = http_StatusMultipleChoices ->
  Api_Get self manifestKey path =
    (None, Entry_ContentType entry, http_StatusMultipleChoices,
     Some (common_Hex2Bytes (Entry_Hash entry)), None).
Proof.
  intros Hload Hentry Hct Hst. unfold Api_Get. rewrite Hload, Hentry.
  rewrite decide_False by done. unfold Get_content. rewrite Hst.
  by rewrite decide_True.
Qed.

(** X13: one level of indirection. When the update of a resource
    pointer is a digest record with the KECCAK-256 code, [Get] loads
    the manifest named by the digest and serves the entry found there
    at the same path as content, whatever the content type of that
    entry: an entry that is again a resource pointer is not looked up a
    second time. *)
Theorem Get_multihash_follows_one_level
    self manifestKey path entry rsrc data decoded trie' entry' :
  resource_entry self manifestKey path entry rsrc data ->
  resource_Multihash rsrc = true ->
  multihash_Decode data = Ok decoded ->
  Multihash_Code decoded = multihash_KECCAK_256 ->
  loadManifest (dpa self) (Multihash_Digest decoded) = Ok trie' ->
  fst (getEntry trie' path) = Some entry' ->
  Entry_Status entry' <> http_StatusMultipleChoices ->
  Api_Get self manifestKey path =
    (Some (fst (DPA_Retrieve (dpa self) (common_Hex2Bytes (Entry_Hash entry')))),
     Entry_ContentType entry', Entry_Status entry',
     Some (common_Hex2Bytes (Entry_Hash entry')), None).
Proof.
  intros Hre Hmh Hdec Hcode Hload' Hentry' Hst.
  rewrite (Api_Get_resource_branch _ _ _ _ _ _ Hre).
  destruct Hre as (trie & rh & k & _ & _ & Hct & Hlook & Hcont).
  unfold Get_resource. rewrite Hlook, Hcont, Hmh, Hdec.
  rewrite decide_False by (by intros ?). rewrite Hload', Hentry'.
  unfold Get_content. rewrite decide_False by done.
  by destruct (DPA_Retrieve _ _).
Qed.

(** X14: failures while dereferencing a resource pointer. A failed
    lookup of the update, a failed fetch of its content, a digest
    manifest that cannot be loaded and a path missing from it are
    answered with status 404; a payload that does not decode as a
    digest record with status 500. Each time the error is non-nil
    (the collaborator's own, or "manifest (resource multihash) entry
    for '%s' not found"), and there is no reader and no content key. *)
Theorem Get_resource_failures self manifestKey path trie entry :
  loadManifest (dpa self) manifestKey = Ok trie ->
  fst (getEntry trie path) = Some entry ->
  Entry_ContentType entry = ResourceContentType ->
  (forall e rh,
     LookupLatestByName (resource self) (Entry_Hash entry) = (Err e, rh) ->
     Api_Get self manifestKey path =
       (None, "", http_StatusNotFound, None, Some e)) /\
  (forall rsrc rh e,
     LookupLatestByName (resource self) (Entry_Hash entry) = (Ok rsrc, rh) ->
     GetContent rh (Entry_Hash entry) = Err e ->
     Api_Get self manifestKey path =
       (None, "", http_StatusNotFound, None, Some e)) /\
  (forall rsrc rh k data,
     LookupLatestByName (resource self) (Entry_Hash entry) = (Ok rsrc, rh) ->
     GetContent rh (Entry_Hash entry) = Ok (k, data) ->
     resource_Multihash rsrc = true ->
     (forall e,
        multihash_Decode data = Err e ->
        Api_Get self manifestKey path =
          (None, "", http_StatusInternalServerError, None, Some e)) /\
     (forall decoded,
        multihash_Decode data = Ok decoded ->
        Multihash_Code decoded = multihash_KECCAK_256 ->
        (forall e,
           loadManifest (dpa self) (Multihash_Digest decoded) = Err e ->
           Api_Get self manifestKey path =
             (None, "", http_StatusNotFound, None, Some e)) /\
        (forall trie',
           loadManifest (dpa self) (Multihash_Digest decoded) = Ok trie' ->
           fst (getEntry trie' path) = None ->
           Api_Get self manifestKey path =
             (None, "", http_StatusNotFound, None,
              Some (Errorf
                      "manifest (resource multihash) entry for '%s' not found"
                      [path]))))).
Proof.
  intros Hload Hentry Hct.
  assert (Api_Get self manifestKey path =
          match Get_resource self path entry with
          | inl ret => ret
          | inr entry' => Get_content self entry'
          end) as ->.
  { unfold Api_Get. rewrite Hload, Hentry. by rewrite decide_True. }
  unfold Get_resource. split; [|split].
  - by intros e rh ->.
  - by intros rsrc rh e -> ->.
  - intros rsrc rh k data -> -> ->. split.
    + by intros e ->.
    + intros decoded -> Hcode. rewrite decide_False by (by intros ?). split.
      * by intros e ->.
      * by intros trie' -> ->.
Qed.
End api_get_more.

Lemma Get_missing_is_404_witness :
  Api_Get Ex.api_empty [x01] "" =
    (None, "", 404, None, Some (ErrCollaborator "manifest not found")) /\
  Api_Get Ex.api_res [x0a] "no/such/path" =
    (None, "", 404, None,
     Some (Errorf "manifest entry for '%s' not found" ["no/such/path"])).
Proof.
  split.
  - exact (proj1 (Get_missing_is_404 Ex.api_empty [x01] "") _ eq_refl).
  - exact (proj2 (Get_missing_is_404 Ex.api_res [x0a] "no/such/path")
             _ eq_refl eq_refl).
Defined.

Lemma Get_ambiguous_entry_has_no_reader_witness :
  Api_Get (H2 := Ex2.manifest_fixed) Ex.api_empty [] "a/" =
    (None, "application/bzz-manifest+json", 300, Some [x0d], None).
Proof.
  etrans.
  - apply (Get_ambiguous_entry_has_no_reader (H2 := Ex2.manifest_fixed)
             Ex.api_empty [] "a/"
             [Ex2.leaf_ab; Ex2.ambiguous_a] Ex2.ambiguous_a).
    + reflexivity.
    + reflexivity.
    + vm_compute. discriminate.
    + reflexivity.
  - vm_compute. reflexivity.
Defined.

(** X13 at a concrete store: the digest of [kec.res] names the
    manifest under [0a], whose entry is the pointer to [raw.res]. That
    entry is served as content, with the marker as its content type;
    [raw.res] is not looked up. *)
Lemma Get_multihash_follows_one_level_witness :
  Api_Get Ex2.api_keccak [x0d] "" =
    (Some (bytes_NewReader []), "application/bzz-resource", 0, Some [], None).
Proof.
  assert (resource_entry Ex2.api_keccak [x0d] "" (Ex.resource_pointer "kec.res")
            true [x1b; x01; x0a]) as Hre.
  { eexists _, _, _. repeat split; reflexivity. }
  etrans.
  - eapply (Get_multihash_follows_one_level Ex2.api_keccak [x0d] ""
              (Ex.resource_pointer "kec.res") true [x1b; x01; x0a]
              {| Multihash_Code := 27; Multihash_Length := 1;
                 Multihash_Digest := [x0a] |}
              _ (Ex.resource_pointer "raw.res") Hre).
    + reflexivity.
    + reflexivity.
    + reflexivity.
    + reflexivity.
    + reflexivity.
    + vm_compute. discriminate.
  - vm_compute. reflexivity.
Defined.

Lemma Get_resource_failures_witness :
  Api_Get Ex2.api_keccak [x0f] "" =
    (None, "", 404, None, Some (ErrCollaborator "resource not found")) /\
  Api_Get Ex2.api_keccak [x0e] "" =
    (None, "", 500, None, Some (ErrCollaborator "multihash too short")).
Proof.
  split.
  - edestruct (Get_resource_failures Ex2.api_keccak [x0f] "")
      as (Hlook & _ & _); [reflexivity..|].
    exact (Hlook _ _ eq_refl).
  - edestruct (Get_resource_failures Ex2.api_keccak [x0e] "")
      as (_ & _ & Hdec); [reflexivity..|].
    destruct (Hdec true (resource Ex2.api_keccak) [] [x1b] eq_refl eq_refl eq_refl)
      as [Hbad _].
    exact (Hbad _ eq_refl).
Defined.

(** ** [Api.AppendFile]: the combined buffer in general *)

Section read_at_least.
Context {R : Type} `{io_Reader R}.


End read_at_least.

Section append_buffer_more.
Context `{Storage}.
Implicit Types (self : Api).

(** One [Read] of a reader that delivers [old] fills the front of a
    buffer that has room for it. *)
Lemma io_ReadAtLeast_old_fits fuel (r : LazyChunkReader) old buf min :
  reader_holds r old ->
  0 < min <= Z.of_nat (length old) ->
  (length old <= length buf)%nat ->
  exists r' n err,
    io_ReadAtLeast (S fuel) r buf min
    = Done (r', old ++ drop (length old) buf, n, err).
Proof.
  intros Hr Hmin Hfit. unfold io_ReadAtLeast.
  replace (Z.of_nat (length buf) <? min) with false by lia.
  cbn [ReadAtLeast_loop]. replace (0 <? min) with true by lia.
  rewrite bool_decide_eq_true_2 by done. cbn [andb].
  change (Z.to_nat 0) with 0%nat. rewrite Nat.sub_0_r.
  specialize (Hr (length buf)). cbn [io_Read LazyChunkReader_io].
  destruct (LazyChunkReader_Read r (length buf)) as [[bs err'] r'].
  simpl in Hr. subst bs. rewrite (take_ge old) by done.
  rewrite (take_ge old) by done. rewrite take_0. cbn [app Nat.add].
  destruct fuel; cbn [ReadAtLeast_loop];
    replace (0 + Z.of_nat (length old) <? min) with false by lia;
    cbn [andb mbind outcome_bind mret outcome_ret]; by eexists _, _, _.
Qed.



(** X17: the splice. With an old reader that delivers the old content
    [old] of the declared size, new content of [addSize] bytes, and
    either a positive [offset] (within the old content) or new content
    that covers the whole old content from offset 0, the buffer is the
    old bytes before [offset], the new content, and the old bytes from
    [offset + addSize] on. *)
Theorem AppendFile_splices_new_into_old
    fuel self old content oldKey offset :
  reader_holds (fst (DPA_Retrieve (dpa self) oldKey)) old ->
  0 <= offset <= Z.of_nat (length old) ->
  0 < offset \/ (length old <= length content)%nat ->
  offset + Z.of_nat (length content) < 2 ^ 63 ->
  AppendFile_buf (S fuel) self (Z.of_nat (length old)) content oldKey offset
    (Z.of_nat (length content))
  = Done (take (Z.to_nat offset) old ++ content
            ++ drop (Z.to_nat offset + length content) old,
          [ReadOld offset; ReadNew (Z.of_nat (length content))]).
Proof.
  intros Hr Hoff Hcase Hmax. unfold AppendFile_buf.
  set (N := Z.of_nat (length old)). set (a := Z.of_nat (length content)).
  set (B := AppendFile_buffSize offset a N).
  assert (B = Z.max (offset + a) N) as HB.
  { unfold B, AppendFile_buffSize. rewrite wrap64_small by lia.
    destruct (offset + a <? N) eqn:E; lia. }
  assert ((B <? N) = false) as Hguard by lia.
  unfold make_bytes. replace (B <? 0) with false by lia.
  cbn [mbind outcome_bind].
  destruct (DPA_Retrieve (dpa self) oldKey) as [oldReader enc]. simpl in Hr.
  assert (exists r n e buf1,
            io_ReadAtLeast (S fuel) oldReader (replicate (Z.to_nat B) x00) offset
            = Done (r, buf1, n, e) /\
            length buf1 = Z.to_nat B /\
            take (Z.to_nat offset) buf1 = take (Z.to_nat offset) old /\
            drop (Z.to_nat offset + length content) buf1
            = drop (Z.to_nat offset + length content) old) as Hfirst.
  { destruct (decide (offset = 0)) as [->|Hpos].
    - rewrite io_ReadAtLeast_min_0. eexists _, _, _, _. split; [done|].
      rewrite length_replicate. split; [done|]. split; [by rewrite !take_0|].
      rewrite drop_replicate. change (Z.to_nat 0) with 0%nat.
      rewrite drop_ge by lia.
      replace (Z.to_nat B - (0 + length content))%nat with 0%nat by lia. done.
    - destruct (io_ReadAtLeast_old_fits fuel oldReader old
                  (replicate (Z.to_nat B) x00) offset Hr)
        as (r & n & e & ->); [lia|rewrite length_replicate; lia|].
      eexists _, _, _, _. split; [done|].
      rewrite length_app, length_drop, length_replicate.
      split; [lia|]. split.
      + rewrite take_app_le by lia. done.
      + rewrite drop_replicate.
        destruct (decide (Z.to_nat offset + length content <= length old)%nat).
        * replace (Z.to_nat B - length old)%nat with 0%nat by lia.
          simpl. by rewrite app_nil_r.
        * rewrite drop_app_ge by lia. rewrite drop_replicate.
          rewrite (drop_ge old) by lia.
          replace (Z.to_nat B - length old
                   - (Z.to_nat offset + length content - length old))%nat
            with 0%nat by lia. done. }
  destruct Hfirst as (r & n & e & buf1 & -> & Hlen & Htake & Hdrop).
  cbn [mbind outcome_bind]. unfold bytes_slice_from.
  replace ((0 <=? offset) && (offset <=? Z.of_nat (length buf1))) with true
    by lia.
  cbn [mbind outcome_bind].
  destruct (io_ReadAtLeast_bytes_fits fuel content (drop (Z.to_nat offset) buf1))
    as (r2 & n2 & e2 & Hsecond); [rewrite length_drop; lia|].
  fold a in Hsecond. rewrite Hsecond. cbn [mbind outcome_bind].
  rewrite Hguard. cbn [mret outcome_ret]. rewrite drop_drop, Htake.
  replace (Z.to_nat offset + length content)%nat
    with (Z.to_nat offset + length content)%nat in Hdrop by done.
  by rewrite Hdrop.
Qed.
End append_buffer_more.

(** X17 at a concrete input: old content [07 08 09], new content [01]
    at offset 1. The old byte after the new content is kept. *)
Lemma AppendFile_splices_new_into_old_witness :
  reader_holds (fst (DPA_Retrieve (dpa Ex2.api_old3) [x0c])) Ex2.old3 /\
  AppendFile_buf 1 Ex2.api_old3 3 [x01] [x0c] 1 1
    = Done ([x07; x01; x09], [ReadOld 1; ReadNew 1]).
Proof.
  assert (reader_holds (fst (DPA_Retrieve (dpa Ex2.api_old3) [x0c])) Ex2.old3)
    as Hr by (apply Mem_reader_holds; reflexivity).
  split; [exact Hr|].
  apply (AppendFile_splices_new_into_old 0 Ex2.api_old3 Ex2.old3 [x01] [x0c] 1 Hr).
  - simpl. lia.
  - left. lia.
  - simpl. lia.
Defined.


(** ** [AddFile], [RemoveFile], [AppendFile]: paths and results *)

Lemma trim_root_dir_slash p : trim_root_dir (String "/" p) = Done p.
Proof. by rewrite trim_root_dir_nonempty. Qed.

Lemma trim_root_dir_no_slash c rest :
  Ascii.eqb c "/" = false -> trim_root_dir (String c rest) = Done (String c rest).
Proof. intros Hc. by rewrite trim_root_dir_nonempty, Hc. Qed.

Section file_edits.
Context `{Storage, UriOps, Manifest, GoLib}.
Implicit Types (self : Api).

(** X18: one leading slash of the directory path is insignificant.
    For a non-empty path that does not start with a slash, [AddFile],
    [RemoveFile] and [AppendFile] do the same with the path and with
    the path prefixed by ["/"]. *)
Theorem leading_slash_of_path_is_insignificant c rest :
  Ascii.eqb c "/" = false ->
  (forall self mhash fname content nameresolver,
     Api_AddFile self mhash (String "/" (String c rest)) fname content
       nameresolver
     = Api_AddFile self mhash (String c rest) fname content nameresolver) /\
  (forall self mhash fname nameresolver,
     Api_RemoveFile self mhash (String "/" (String c rest)) fname nameresolver
     = Api_RemoveFile self mhash (String c rest) fname nameresolver) /\
  (forall fuel self mhash fname existingSize content oldKey offset addSize
          nameresolver,
     Api_AppendFile fuel self mhash (String "/" (String c rest)) fname
       existingSize content oldKey offset addSize nameresolver
     = Api_AppendFile fuel self mhash (String c rest) fname
         existingSize content oldKey offset addSize nameresolver).
Proof.
  intros Hc. split; [|split]; intros.
  - unfold Api_AddFile.
    by rewrite trim_root_dir_slash, (trim_root_dir_no_slash c rest Hc).
  - unfold Api_RemoveFile.
    by rewrite trim_root_dir_slash, (trim_root_dir_no_slash c rest Hc).
  - unfold Api_AppendFile.
    by rewrite trim_root_dir_slash, (trim_root_dir_no_slash c rest Hc).
Qed.

(** X19: [AddFile] and [RemoveFile] panic on no other input than the
    empty directory path. On every other call they return: [AddFile]
    the key of the file exactly when the error is nil, and both an
    empty root string whenever the error is non-nil. *)
Theorem AddFile_RemoveFile_return_unless_path_empty
    self mhash path fname content nameresolver :
  match Api_AddFile self mhash path fname content nameresolver with
  | Done (fkey, root, err) =>
      (fkey = None <-> err <> None) /\ (err <> None -> root = "")
  | Panic _ => path = ""
  | OutOfFuel => False
  end /\
  match Api_RemoveFile self mhash path fname nameresolver with
  | Done (root, err) => err <> None -> root = ""
  | Panic _ => path = ""
  | OutOfFuel => False
  end.
Proof.
  unfold Api_AddFile, Api_RemoveFile.
  destruct (Parse _) as [uri|e]; [|by repeat split].
  destruct (Api_Resolve self uri) as [mkey [e|]]; [by repeat split|].
  destruct path as [|c rest]; [done|].
  rewrite trim_root_dir_nonempty. cbn [mbind outcome_bind].
  destruct (NewManifestWriter _ _) as [mw|e]; [|by repeat split].
  split.
  - destruct (ManifestWriter_AddEntry mw content _) as [[fkey|e] mw'];
      [|by repeat split].
    destruct (ManifestWriter_Store mw') as [newMkey|e]; by repeat split.
  - destruct (ManifestWriter_RemoveEntry mw _) as [[e|] mw']; [done|].
    destruct (ManifestWriter_Store mw') as [newMkey|e]; simpl; done.
Qed.
End file_edits.

Lemma leading_slash_of_path_is_insignificant_witness :
  Ascii.eqb "d" "/" = false /\
  Api_AddFile Ex.api_empty Ex.hash64 "/docs" "f.txt" [x01] false
    = Api_AddFile Ex.api_empty Ex.hash64 "docs" "f.txt" [x01] false /\
  Api_AddFile Ex.api_empty Ex.hash64 "docs" "f.txt" [x01] false
    = Done (Some [x01], "", None).
Proof.
  split; [reflexivity|]. split; [|vm_compute; reflexivity].
  exact (proj1 (leading_slash_of_path_is_insignificant "d" "ocs" eq_refl)
           Ex.api_empty Ex.hash64 "f.txt" [x01] false).
Defined.

(** ** [Api.BuildDirectoryTree] *)

Lemma foldl_record_entry_lookup (visits : list (ManifestEntry * string)) s :
  foldl record_entry ∅ visits !! s = last_visit s visits.
Proof.
  unfold last_visit. induction visits as [|v visits IH] using rev_ind.
  - simpl. by rewrite lookup_empty.
  - rewrite foldl_app, filter_app. simpl. unfold record_entry at 1.
    rewrite lookup_insert. rewrite filter_cons, filter_nil.
    destruct (decide (v.2 = s)) as [Hs|Hs].
    + by rewrite last_snoc.
    + by rewrite app_nil_r.
Qed.

Section build_directory_tree.
Context `{Storage, UriOps} `{!Manifest} `{!ManifestList}.
Implicit Types (self : Api).

(** X20: when the root resolves, its manifest loads and the listing
    ends without error, [BuildDirectoryTree] returns the resolved key
    and a map that holds, for every suffix handed to the callback, the
    entry handed over last with that suffix, and nothing for any other
    suffix. *)
Theorem BuildDirectoryTree_maps_suffix_to_last_entry
    self mhash nameresolver uri key trie visits :
  Parse ("bzz:/" +:+ mhash) = Ok uri ->
  Api_Resolve self uri = (Some key, None) ->
  loadManifest (dpa self) key = Ok trie ->
  listWithPrefix trie (URI_Path uri) = (visits, None) ->
  exists m,
    Api_BuildDirectoryTree self mhash nameresolver = (Some key, Some m, None) /\
    forall s, m !! s = last_visit s visits.
Proof.
  intros Hparse Hres Hload Hlist. unfold Api_BuildDirectoryTree.
  rewrite Hparse, Hres. simpl. rewrite Hload, Hlist.
  eexists. split; [done|]. apply foldl_record_entry_lookup.
Qed.

(** X21: [BuildDirectoryTree] returns all or nothing: with a non-nil
    error both the key and the map are nil, also when the listing fails
    after entries were already recorded; with a nil error the map is
    non-nil. *)
Theorem BuildDirectoryTree_all_or_nothing self mhash nameresolver :
  let '(key, m, err) := Api_BuildDirectoryTree self mhash nameresolver in
  (err <> None -> key = None /\ m = None) /\ (err = None -> m <> None).
Proof.
  unfold Api_BuildDirectoryTree.
  destruct (Parse _) as [uri|e]; [|by split].
  destruct (Api_Resolve self uri) as [key [e|]]; [by split|].
  destruct (loadManifest _ _) as [trie|e]; [|by split].
  destruct (listWithPrefix trie (URI_Path uri)) as [visits [e|]]; by split.
Qed.
End build_directory_tree.

Lemma BuildDirectoryTree_maps_suffix_to_last_entry_witness :
  exists m,
    Api_BuildDirectoryTree Ex2.api_tree Ex.hash64 false
      = (Some Ex2.key64, Some m, None) /\
    m !! "" = Some (Ex.resource_pointer "raw.res") /\
    m !! "other" = None.
Proof.
  edestruct (BuildDirectoryTree_maps_suffix_to_last_entry
               Ex2.api_tree Ex.hash64 false) as (m & Hm & Hlook);
    [reflexivity..|].
  exists m. split; [exact Hm|]. rewrite !Hlook. split; reflexivity.
Defined.
